(** * The simulator's KMIP crypto manager (simulator/crypto_manager_kmip.go)
    and the client-side predicates of crypto/manager_kmip.go.

    The registry is the ordered slice [KmipServers]; the key ledger is the
    map [keyIDToProviderID].  Every method of the simulator is embedded as a
    function from the manager's state and the request to the new state and
    the response body.  Loops are embedded as structural recursions over the
    slice they range over, with the loop's local variables as arguments. *)

From stdpp Require Import gmap strings list fin_maps.
From Stdlib Require Import ZArith.

(** ** Data model (vim25/types, as far as the simulator reads it) *)

(** Modelled from the spec: the managed-object reference type of vim25/types
    is not part of the sources; the simulator only compares references for
    equality ([*req.Entity == c.UseAsEntityDefault[j]]). *)
Record ManagedObjectReference := {
  Type_ : string;
  Value : string;
}.

Global Instance ManagedObjectReference_eq_dec : EqDecision ManagedObjectReference.
Proof. solve_decision. Defined.

(** Modelled from the spec: the entity-status enumeration of vim25/types is
    not part of the sources; the status task only ever writes the healthy
    value [ManagedEntityStatusGreen]. *)
Inductive ManagedEntityStatus :=
  | ManagedEntityStatusGray
  | ManagedEntityStatusGreen
  | ManagedEntityStatusYellow
  | ManagedEntityStatusRed.

Global Instance ManagedEntityStatus_eq_dec : EqDecision ManagedEntityStatus.
Proof. solve_decision. Defined.

Record KeyProviderId := { Id : string }.

Global Instance KeyProviderId_eq_dec : EqDecision KeyProviderId.
Proof. solve_decision. Defined.

(** A server entry.  The simulator reads [Name] only; the remaining
    connection data is stored and echoed, never interpreted. *)
Record KmipServerInfo := {
  Name : string;
  Address : string;
  Port : Z;
}.

Global Instance KmipServerInfo_eq_dec : EqDecision KmipServerInfo.
Proof. solve_decision. Defined.

Record KmipClusterInfo := {
  ClusterId : KeyProviderId;
  Servers : list KmipServerInfo;
  UseAsDefault : bool;
  ManagementType : string;
  UseAsEntityDefault : list ManagedObjectReference;
}.

Global Instance KmipClusterInfo_eq_dec : EqDecision KmipClusterInfo.
Proof. solve_decision. Defined.

(** The zero value of the struct ([var provider types.KmipClusterInfo]). *)
Definition KmipClusterInfo_zero : KmipClusterInfo :=
  {| ClusterId := {| Id := "" |}; Servers := []; UseAsDefault := false;
     ManagementType := ""; UseAsEntityDefault := [] |}.

Record KmipServerSpec := {
  Spec_ClusterId : KeyProviderId;
  Info : KmipServerInfo;
}.

Record CryptoKeyId := {
  KeyId : string;
  ProviderId : option KeyProviderId;
}.

Global Instance CryptoKeyId_eq_dec : EqDecision CryptoKeyId.
Proof. solve_decision. Defined.

Record CryptoManagerKmipServerStatus := {
  Status_Name : string;
  Status : ManagedEntityStatus;
}.

Record CryptoManagerKmipClusterStatus := {
  Status_ClusterId : KeyProviderId;
  Status_ManagementType : string;
  OverallStatus : ManagedEntityStatus;
  Status_Servers : list CryptoManagerKmipServerStatus;
}.

(** Field updates through a pointer into the slice ([c := &m.KmipServers[i]]). *)
Definition set_UseAsDefault (b : bool) (c : KmipClusterInfo) : KmipClusterInfo :=
  {| ClusterId := ClusterId c; Servers := Servers c; UseAsDefault := b;
     ManagementType := ManagementType c;
     UseAsEntityDefault := UseAsEntityDefault c |}.

Definition set_UseAsEntityDefault (l : list ManagedObjectReference)
    (c : KmipClusterInfo) : KmipClusterInfo :=
  {| ClusterId := ClusterId c; Servers := Servers c;
     UseAsDefault := UseAsDefault c; ManagementType := ManagementType c;
     UseAsEntityDefault := l |}.

Definition set_Servers (l : list KmipServerInfo) (c : KmipClusterInfo)
    : KmipClusterInfo :=
  {| ClusterId := ClusterId c; Servers := l; UseAsDefault := UseAsDefault c;
     ManagementType := ManagementType c;
     UseAsEntityDefault := UseAsEntityDefault c |}.

(** ** Request structures *)

Record ListKmipServersRequest := { ListKmipServers_Limit : option Z }.

Record GetDefaultKmsClusterRequest := {
  GetDefault_Entity : option ManagedObjectReference;
  DefaultsToParent : option bool;
}.


Record MarkDefaultRequest := { MarkDefault_ClusterId : KeyProviderId }.

Record SetDefaultKmsClusterRequest := {
  SetDefault_ClusterId : option KeyProviderId;
  SetDefault_Entity : option ManagedObjectReference;
}.

Record RegisterKmsClusterRequest := {
  Register_ClusterId : KeyProviderId;
  Register_ManagementType : string;
}.

Record UnregisterKmsClusterRequest := { Unregister_ClusterId : KeyProviderId }.

Record RegisterKmipServerRequest := { Register_Server : KmipServerSpec }.

Record UpdateKmipServerRequest := { Update_Server : KmipServerSpec }.

Record RemoveKmipServerRequest := {
  Remove_ClusterId : KeyProviderId;
  ServerName : string;
}.

Record GenerateKeyRequest := { KeyProvider : option KeyProviderId }.

Record ListKeysRequest := { ListKeys_Limit : option Z }.

(** ** Response bodies

    A method body carries either a fault, built by [Fault(msg, ...)], or a
    response value. *)
Inductive Body (A : Type) :=
  | Fault_ (msg : string)
  | Res (r : A).
Arguments Fault_ {A} msg.
Arguments Res {A} r.

Definition is_fault {A} (b : Body A) : bool :=
  match b with Fault_ _ => true | Res _ => false end.

(** The messages the simulator passes to [Fault]. *)
Definition InvalidClusterID : string := "Invalid cluster ID".
Definition InvalidServerName : string := "Invalid server name".
Definition AlreadyRegistered : string := "Already registered".
Definition NoDefaultProvider : string := "No default provider".
Definition NativeProviderUnsupported : string :=
  "Cannot generate keys with native key provider".

(** ** The manager's state *)

Record CryptoManagerKmip := {
  KmipServers : list KmipClusterInfo;
  keyIDToProviderID : gmap string string;
}.

Definition with_KmipServers (l : list KmipClusterInfo) (m : CryptoManagerKmip)
    : CryptoManagerKmip :=
  {| KmipServers := l; keyIDToProviderID := keyIDToProviderID m |}.

Definition with_keys (k : gmap string string) (m : CryptoManagerKmip)
    : CryptoManagerKmip :=
  {| KmipServers := KmipServers m; keyIDToProviderID := k |}.

(** The state after [init]: no cluster, an empty ledger. *)
Definition empty_manager : CryptoManagerKmip :=
  {| KmipServers := []; keyIDToProviderID := ∅ |}.

(** ** ListKmipServers *)

(** [limit] as the method computes it from the slice length and the
    request's optional limit. *)
Definition effective_limit (len : nat) (Limit : option Z) : Z :=
  let limit := Z.of_nat len in
  match Limit with
  | Some reqLimit =>
      if (0 <=? reqLimit)%Z && (reqLimit <? limit)%Z then reqLimit else limit
  | None => limit
  end.

Definition ListKmipServers (m : CryptoManagerKmip)
    (req : ListKmipServersRequest) : list KmipClusterInfo :=
  if decide (0 < length (KmipServers m)) then
    take (Z.to_nat (effective_limit (length (KmipServers m))
                      (ListKmipServers_Limit req)))
         (KmipServers m)
  else [].

(** ** GetDefaultKmsCluster *)

(** The inner loop over [c.UseAsEntityDefault]; it has no [break]. *)
Fixpoint GetDefault_entities (e : ManagedObjectReference) (c : KmipClusterInfo)
    (l : list ManagedObjectReference) (providerID : string) : string :=
  match l with
  | [] => providerID
  | x :: l' =>
      GetDefault_entities e c l'
        (if decide (e = x) then Id (ClusterId c) else providerID)
  end.

Fixpoint GetDefault_loop (Entity : option ManagedObjectReference)
    (cs : list KmipClusterInfo) (providerID : string) : string :=
  match cs with
  | [] => providerID
  | c :: cs' =>
      let providerID :=
        match Entity with
        | Some e => GetDefault_entities e c (UseAsEntityDefault c) providerID
        | None => if UseAsDefault c then Id (ClusterId c) else providerID
        end in
      if decide (providerID ≠ "") then providerID
      else GetDefault_loop Entity cs' providerID
  end.

Definition GetDefaultKmsCluster (m : CryptoManagerKmip)
    (req : GetDefaultKmsClusterRequest) : Body (option KeyProviderId) :=
  let providerID := GetDefault_loop (GetDefault_Entity req) (KmipServers m) "" in
  if decide (providerID = "") then Fault_ NoDefaultProvider
  else Res (Some {| Id := providerID |}).

(** The client's [ManagerKmip.GetDefaultKmsClusterID]: a fault becomes the
    error, a missing return value the empty string. *)
Definition GetDefaultKmsClusterID (m : CryptoManagerKmip)
    (entity : option ManagedObjectReference) (defaultsToParent : bool)
    : Body string :=
  match GetDefaultKmsCluster m
          {| GetDefault_Entity := entity;
             DefaultsToParent := Some defaultsToParent |} with
  | Fault_ msg => Fault_ msg
  | Res (Some id) => Res (Id id)
  | Res None => Res ""
  end.

(** ** retrieveKmipServerStatusTask.Run *)

(** The loop [for j := range c.KmipServers] that fills an empty selector's
    server list; every match overwrites [g.Servers], so the last one wins. *)
Fixpoint Run_fill (g : KmipClusterInfo) (cs : list KmipClusterInfo)
    (servers : list KmipServerInfo) : list KmipServerInfo :=
  match cs with
  | [] => servers
  | c :: cs' =>
      Run_fill g cs'
        (if decide (Id (ClusterId g) = Id (ClusterId c)) then Servers c
         else servers)
  end.

Definition Run_expand (cs : list KmipClusterInfo) (g : KmipClusterInfo)
    : KmipClusterInfo :=
  if decide (length (Servers g) = 0) then
    set_Servers (Run_fill g cs (Servers g)) g
  else g.

Definition green_server (s : KmipServerInfo) : CryptoManagerKmipServerStatus :=
  {| Status_Name := Name s; Status := ManagedEntityStatusGreen |}.

(** The loops over [k] (the cluster's servers) and [l] (the selector's
    servers): one appended record per pair with equal names. *)
Definition Run_servers (c g : KmipClusterInfo)
    : list CryptoManagerKmipServerStatus :=
  s ← Servers c;
  gs ← Servers g;
  if decide (Name s = Name gs) then [green_server s] else [].

Definition Run_status (c g : KmipClusterInfo) : CryptoManagerKmipClusterStatus :=
  {| Status_ClusterId := {| Id := Id (ClusterId c) |};
     Status_ManagementType := ManagementType c;
     OverallStatus := ManagedEntityStatusGreen;
     Status_Servers := Run_servers c g |}.

(** The loops over [i] (the registry) and [j] (the selectors): one appended
    record per pair with equal cluster IDs. *)
Definition Run_result (cs get : list KmipClusterInfo)
    : list CryptoManagerKmipClusterStatus :=
  c ← cs;
  g ← get;
  if decide (Id (ClusterId c) = Id (ClusterId g)) then [Run_status c g] else [].

Definition Run (m : CryptoManagerKmip) (get : list KmipClusterInfo)
    : list CryptoManagerKmipClusterStatus :=
  let get := if decide (length get = 0) then KmipServers m else get in
  let get := Run_expand (KmipServers m) <$> get in
  Run_result (KmipServers m) get.


(** ** SetDefaultKmsCluster and MarkDefault *)

(** [req.ClusterId != nil && req.ClusterId.Id != ""] *)
Definition explicit_cluster (req : SetDefaultKmsClusterRequest) : option string :=
  match SetDefault_ClusterId req with
  | Some cid => if decide (Id cid ≠ "") then Some (Id cid) else None
  | None => None
  end.

(** The search loops over [c.UseAsEntityDefault], which stop at the first
    equal entry: [found] in the first, the index [x] in the second. *)
Fixpoint entity_found (e : ManagedObjectReference)
    (l : list ManagedObjectReference) : bool :=
  match l with
  | [] => false
  | x :: l' => if decide (e = x) then true else entity_found e l'
  end.

Fixpoint entity_index (e : ManagedObjectReference)
    (l : list ManagedObjectReference) (j : nat) : option nat :=
  match l with
  | [] => None
  | x :: l' => if decide (e = x) then Some j else entity_index e l' (S j)
  end.

(** The body of the loop for one cluster: the cluster as it is left, and
    whether [validClusterID] was set. *)
Definition SetDefault_visit (req : SetDefaultKmsClusterRequest)
    (c : KmipClusterInfo) : KmipClusterInfo * bool :=
  match explicit_cluster req with
  | Some id =>
      if decide (Id (ClusterId c) ≠ id) then
        (set_UseAsEntityDefault [] (set_UseAsDefault false c), false)
      else
        match SetDefault_Entity req with
        | None => (set_UseAsDefault true c, true)
        | Some e =>
            if entity_found e (UseAsEntityDefault c) then (c, true)
            else (set_UseAsEntityDefault (UseAsEntityDefault c ++ [e]) c, true)
        end
  | None =>
      match SetDefault_Entity req with
      | Some e =>
          match entity_index e (UseAsEntityDefault c) 0 with
          | Some x => (set_UseAsEntityDefault (delete x (UseAsEntityDefault c)) c,
                       false)
          | None => (c, false)
          end
      | None => (set_UseAsDefault false c, false)
      end
  end.

Fixpoint SetDefault_loop (req : SetDefaultKmsClusterRequest)
    (cs : list KmipClusterInfo) (validClusterID : bool)
    : list KmipClusterInfo * bool :=
  match cs with
  | [] => ([], validClusterID)
  | c :: cs' =>
      let '(c', v) := SetDefault_visit req c in
      let '(cs'', valid) := SetDefault_loop req cs' (validClusterID || v) in
      (c' :: cs'', valid)
  end.

Definition SetDefaultKmsCluster (m : CryptoManagerKmip)
    (req : SetDefaultKmsClusterRequest) : CryptoManagerKmip * Body unit :=
  let '(cs, validClusterID) := SetDefault_loop req (KmipServers m) false in
  (with_KmipServers cs m,
   if bool_decide (is_Some (explicit_cluster req)) && negb validClusterID
   then Fault_ InvalidClusterID
   else Res ()).

Definition MarkDefault (m : CryptoManagerKmip) (req : MarkDefaultRequest)
    : CryptoManagerKmip * Body unit :=
  SetDefaultKmsCluster m
    {| SetDefault_ClusterId := Some {| Id := Id (MarkDefault_ClusterId req) |};
       SetDefault_Entity := None |}.

(** The client's [ManagerKmip.SetDefaultKmsClusterId]: the cluster ID is put
    into the request only when [providerID] is not empty. *)
Definition SetDefaultKmsClusterId (m : CryptoManagerKmip) (providerID : string)
    (entity : option ManagedObjectReference) : CryptoManagerKmip * Body unit :=
  SetDefaultKmsCluster m
    {| SetDefault_ClusterId :=
         if decide (providerID ≠ "") then Some {| Id := providerID |} else None;
       SetDefault_Entity := entity |}.

(** The client's [ManagerKmip.MarkDefault]. *)
Definition client_MarkDefault (m : CryptoManagerKmip) (providerID : string)
    : CryptoManagerKmip * Body unit :=
  MarkDefault m {| MarkDefault_ClusterId := {| Id := providerID |} |}.

(** ** RegisterKmsCluster and UnregisterKmsCluster *)

(** The scan of [RegisterKmsCluster]: [fault] stands for [body.Fault_ != nil]. *)
Fixpoint RegisterKmsCluster_loop (id : string) (cs : list KmipClusterInfo)
    (fault : bool) : bool :=
  match cs with
  | [] => fault
  | c :: cs' =>
      RegisterKmsCluster_loop id cs'
        (if decide (id = Id (ClusterId c)) then true else fault)
  end.

Definition RegisterKmsCluster (m : CryptoManagerKmip)
    (req : RegisterKmsClusterRequest) : CryptoManagerKmip * Body unit :=
  if RegisterKmsCluster_loop (Id (Register_ClusterId req)) (KmipServers m) false
  then (m, Fault_ AlreadyRegistered)
  else
    (with_KmipServers
       (KmipServers m ++
          [ {| ClusterId := {| Id := Id (Register_ClusterId req) |};
               Servers := []; UseAsDefault := false;
               ManagementType := Register_ManagementType req;
               UseAsEntityDefault := [] |} ]) m,
     Res ()).

(** The scan of [UnregisterKmsCluster]: [x] is [None] for [-1]; the loop has
    no [break], so it keeps the last matching index. *)
Fixpoint UnregisterKmsCluster_loop (id : string) (cs : list KmipClusterInfo)
    (i : nat) (x : option nat) : option nat :=
  match cs with
  | [] => x
  | c :: cs' =>
      UnregisterKmsCluster_loop id cs' (S i)
        (if decide (id = Id (ClusterId c)) then Some i else x)
  end.

Definition UnregisterKmsCluster (m : CryptoManagerKmip)
    (req : UnregisterKmsClusterRequest) : CryptoManagerKmip * Body unit :=
  match UnregisterKmsCluster_loop (Id (Unregister_ClusterId req))
          (KmipServers m) 0 None with
  | None => (m, Fault_ InvalidClusterID)
  | Some x => (with_KmipServers (delete x (KmipServers m)) m, Res ())
  end.

(** ** RegisterKmipServer, RemoveKmipServer and UpdateKmipServer

    The three loops over the registry stop at the first cluster with the
    requested ID, so [validClusterID] (and the other flag) is still false
    whenever an iteration starts; the recursion returns the slice as it is
    left and the two flags. *)

(** The search loops over [c.Servers], stopping at the first equal name. *)
Fixpoint server_index (name : string) (ss : list KmipServerInfo) (j : nat)
    : option nat :=
  match ss with
  | [] => None
  | s :: ss' => if decide (name = Name s) then Some j
                else server_index name ss' (S j)
  end.

Fixpoint RegisterKmipServer_loop (spec : KmipServerSpec)
    (cs : list KmipClusterInfo) : list KmipClusterInfo * bool * bool :=
  match cs with
  | [] => ([], false, false)
  | c :: cs' =>
      if decide (Id (Spec_ClusterId spec) = Id (ClusterId c)) then
        match server_index (Name (Info spec)) (Servers c) 0 with
        | Some _ => (c :: cs', true, true)
        | None => (set_Servers (Servers c ++ [Info spec]) c :: cs', true, false)
        end
      else
        let '(cs'', validClusterID, alreadyRegistered) :=
          RegisterKmipServer_loop spec cs' in
        (c :: cs'', validClusterID, alreadyRegistered)
  end.

Definition RegisterKmipServer (m : CryptoManagerKmip)
    (req : RegisterKmipServerRequest) : CryptoManagerKmip * Body unit :=
  let '(cs, validClusterID, alreadyRegistered) :=
    RegisterKmipServer_loop (Register_Server req) (KmipServers m) in
  (with_KmipServers cs m,
   if negb validClusterID then Fault_ InvalidClusterID
   else if alreadyRegistered then Fault_ AlreadyRegistered
   else Res ()).

Fixpoint RemoveKmipServer_loop (req : RemoveKmipServerRequest)
    (cs : list KmipClusterInfo) : list KmipClusterInfo * bool * bool :=
  match cs with
  | [] => ([], false, false)
  | c :: cs' =>
      if decide (Id (Remove_ClusterId req) = Id (ClusterId c)) then
        match server_index (ServerName req) (Servers c) 0 with
        | Some x => (set_Servers (delete x (Servers c)) c :: cs', true, true)
        | None => (c :: cs', true, false)
        end
      else
        let '(cs'', validClusterID, validServerName) :=
          RemoveKmipServer_loop req cs' in
        (c :: cs'', validClusterID, validServerName)
  end.

Definition RemoveKmipServer (m : CryptoManagerKmip)
    (req : RemoveKmipServerRequest) : CryptoManagerKmip * Body unit :=
  let '(cs, validClusterID, validServerName) :=
    RemoveKmipServer_loop req (KmipServers m) in
  (with_KmipServers cs m,
   if negb validClusterID then Fault_ InvalidClusterID
   else if negb validServerName then Fault_ InvalidServerName
   else Res ()).

Fixpoint UpdateKmipServer_loop (spec : KmipServerSpec)
    (cs : list KmipClusterInfo) : list KmipClusterInfo * bool * bool :=
  match cs with
  | [] => ([], false, false)
  | c :: cs' =>
      if decide (Id (Spec_ClusterId spec) = Id (ClusterId c)) then
        match server_index (Name (Info spec)) (Servers c) 0 with
        | Some j => (set_Servers (<[j := Info spec]> (Servers c)) c :: cs',
                     true, true)
        | None => (c :: cs', true, false)
        end
      else
        let '(cs'', validClusterID, validServerName) :=
          UpdateKmipServer_loop spec cs' in
        (c :: cs'', validClusterID, validServerName)
  end.

Definition UpdateKmipServer (m : CryptoManagerKmip)
    (req : UpdateKmipServerRequest) : CryptoManagerKmip * Body unit :=
  let '(cs, validClusterID, validServerName) :=
    UpdateKmipServer_loop (Update_Server req) (KmipServers m) in
  (with_KmipServers cs m,
   if negb validClusterID then Fault_ InvalidClusterID
   else if negb validServerName then Fault_ InvalidServerName
   else Res ()).

(** ** GenerateKey, ListKeys and the client's IsValidKey *)

Record CryptoKeyResult := {
  Result_KeyId : CryptoKeyId;
  Success : bool;
}.

(** The resolution loop of [GenerateKey]: [GenerateKey_pick] is the
    assignment to [provider] in its body; [provider] starts as the zero value
    and the loop stops once it holds a cluster with a non-empty ID. *)
Definition GenerateKey_pick (req : GenerateKeyRequest)
    (c provider : KmipClusterInfo) : KmipClusterInfo :=
  match KeyProvider req with
  | None => if UseAsDefault c then c else provider
  | Some kp => if decide (Id kp = Id (ClusterId c)) then c else provider
  end.

Fixpoint GenerateKey_loop (req : GenerateKeyRequest)
    (cs : list KmipClusterInfo) (provider : KmipClusterInfo) : KmipClusterInfo :=
  match cs with
  | [] => provider
  | c :: cs' =>
      let provider := GenerateKey_pick req c provider in
      if decide (Id (ClusterId provider) ≠ "") then provider
      else GenerateKey_loop req cs' provider
  end.

Definition GenerateKey_provider (m : CryptoManagerKmip)
    (req : GenerateKeyRequest) : KmipClusterInfo :=
  GenerateKey_loop req (KmipServers m) KmipClusterInfo_zero.

Section GenerateKey.

(** The reserved management type of a native key provider, the constant
    [types.KmipClusterInfoKmsManagementTypeNativeProvider]; its declaration
    is outside the sources, so the tag is a parameter. *)
Variable nativeKeyProvider : string.

(** [newKey] is the string [uuid.NewString()] returns in this call. *)
Definition GenerateKey (m : CryptoManagerKmip) (req : GenerateKeyRequest)
    (newKey : string) : CryptoManagerKmip * Body CryptoKeyResult :=
  let provider := GenerateKey_provider m req in
  if decide (Id (ClusterId provider) = "") then
    (m, Fault_ NoDefaultProvider)
  else if decide (ManagementType provider = nativeKeyProvider) then
    (m, Fault_ NativeProviderUnsupported)
  else
    (with_keys (<[newKey := Id (ClusterId provider)]> (keyIDToProviderID m)) m,
     Res {| Success := true;
            Result_KeyId :=
              {| KeyId := newKey;
                 ProviderId := Some {| Id := Id (ClusterId provider) |} |} |}).

(** The client's [ManagerKmip.GenerateKey]: the provider is put into the
    request only when [providerID] is not empty. *)
Definition client_GenerateKey (m : CryptoManagerKmip) (providerID : string)
    (newKey : string) : CryptoManagerKmip * Body CryptoKeyResult :=
  GenerateKey m
    {| KeyProvider :=
         if decide (providerID ≠ "") then Some {| Id := providerID |}
         else None |}
    newKey.

End GenerateKey.

(** Go does not fix the order in which [range] visits a map.  [ListKeys]
    takes the order of this call as an argument; [range_order] says that the
    list is such an order: every entry of the map, once. *)
Definition range_order (k : gmap string string) (order : list (string * string))
    : Prop :=
  order ≡ₚ map_to_list k.

Definition key_record (e : string * string) : CryptoKeyId :=
  {| KeyId := e.1; ProviderId := Some {| Id := e.2 |} |}.

Fixpoint ListKeys_loop (limit : Z) (order : list (string * string)) (i : Z)
    (Returnval : list CryptoKeyId) : list CryptoKeyId :=
  match order with
  | [] => Returnval
  | e :: rest =>
      if (limit <=? i)%Z then Returnval
      else ListKeys_loop limit rest (i + 1) (Returnval ++ [key_record e])
  end.

Definition ListKeys (m : CryptoManagerKmip) (req : ListKeysRequest)
    (order : list (string * string)) : list CryptoKeyId :=
  if decide (0 < size (keyIDToProviderID m)) then
    ListKeys_loop
      (effective_limit (size (keyIDToProviderID m)) (ListKeys_Limit req))
      order 0 []
  else [].

Fixpoint IsValidKey_loop (keyID : string) (keys : list CryptoKeyId) : bool :=
  match keys with
  | [] => false
  | k :: keys' => if decide (KeyId k = keyID) then true
                  else IsValidKey_loop keyID keys'
  end.

(** The client's [ManagerKmip.IsValidKey]: [ListKeys] without a limit, then
    a search of the returned slice. *)
Definition IsValidKey (m : CryptoManagerKmip) (keyID : string)
    (order : list (string * string)) : bool :=
  IsValidKey_loop keyID (ListKeys m {| ListKeys_Limit := None |} order).

(** ** Sequences of calls *)

Inductive Call :=
  | CallRegisterKmsCluster (req : RegisterKmsClusterRequest)
  | CallUnregisterKmsCluster (req : UnregisterKmsClusterRequest)
  | CallRegisterKmipServer (req : RegisterKmipServerRequest)
  | CallUpdateKmipServer (req : UpdateKmipServerRequest)
  | CallRemoveKmipServer (req : RemoveKmipServerRequest)
  | CallSetDefaultKmsCluster (req : SetDefaultKmsClusterRequest)
  | CallMarkDefault (req : MarkDefaultRequest)
  | CallGenerateKey (req : GenerateKeyRequest) (newKey : string).

(** The state a call leaves behind, whatever its body says. *)
Definition serve (nativeKeyProvider : string) (m : CryptoManagerKmip)
    (c : Call) : CryptoManagerKmip :=
  match c with
  | CallRegisterKmsCluster req => (RegisterKmsCluster m req).1
  | CallUnregisterKmsCluster req => (UnregisterKmsCluster m req).1
  | CallRegisterKmipServer req => (RegisterKmipServer m req).1
  | CallUpdateKmipServer req => (UpdateKmipServer m req).1
  | CallRemoveKmipServer req => (RemoveKmipServer m req).1
  | CallSetDefaultKmsCluster req => (SetDefaultKmsCluster m req).1
  | CallMarkDefault req => (MarkDefault m req).1
  | CallGenerateKey req newKey => (GenerateKey nativeKeyProvider m req newKey).1
  end.

Definition serve_all (nativeKeyProvider : string) (m : CryptoManagerKmip)
    (calls : list Call) : CryptoManagerKmip :=
  foldl (serve nativeKeyProvider) m calls.

(** ** Predicates on the registry *)

(** The cluster IDs in registry order. *)
Definition cluster_ids (cs : list KmipClusterInfo) : list string :=
  (λ c, Id (ClusterId c)) <$> cs.

(** The request [SetDefault(clusterID, entity)] with an explicit cluster. *)
Definition SetDefault_request (clusterID : string)
    (entity : option ManagedObjectReference) : SetDefaultKmsClusterRequest :=
  {| SetDefault_ClusterId := Some {| Id := clusterID |};
     SetDefault_Entity := entity |}.

(** What a cluster that does not carry the requested ID is left as. *)
Definition cleared (c : KmipClusterInfo) : KmipClusterInfo :=
  set_UseAsEntityDefault [] (set_UseAsDefault false c).

(** The frame of [SetDefault(clusterID = C, entity = E)] as the registry
    description words it: the call succeeds, [E] is among the entity defaults
    of the clusters named [C] (which are untouched if it already was), and a
    cluster with another ID loses [E] but keeps its [UseAsDefault] flag and
    its other entity defaults. *)
Definition SetDefault_entity_frame (m : CryptoManagerKmip) (C : string)
    (E : ManagedObjectReference) : Prop :=
  let r := SetDefaultKmsCluster m (SetDefault_request C (Some E)) in
  r.2 = Res () ∧
  length (KmipServers r.1) = length (KmipServers m) ∧
  ∀ i c c', KmipServers m !! i = Some c → KmipServers r.1 !! i = Some c' →
    (Id (ClusterId c) = C →
       E ∈ UseAsEntityDefault c' ∧ (E ∈ UseAsEntityDefault c → c' = c)) ∧
    (Id (ClusterId c) ≠ C →
       (E ∉ UseAsEntityDefault c') ∧
       UseAsDefault c' = UseAsDefault c ∧
       ∀ e, e ≠ E → (e ∈ UseAsEntityDefault c' ↔ e ∈ UseAsEntityDefault c)).

(** Sample references, clusters and servers. *)
Definition vm1 : ManagedObjectReference :=
  {| Type_ := "VirtualMachine"; Value := "vm-1" |}.
Definition vm2 : ManagedObjectReference :=
  {| Type_ := "VirtualMachine"; Value := "vm-2" |}.

Definition server (name : string) : KmipServerInfo :=
  {| Name := name; Address := "127.0.0.1"; Port := 5696 |}.

Definition cluster (id : string) (servers : list KmipServerInfo)
    (useAsDefault : bool) (entities : list ManagedObjectReference)
    : KmipClusterInfo :=
  {| ClusterId := {| Id := id |}; Servers := servers;
     UseAsDefault := useAsDefault; ManagementType := "KmsServer";
     UseAsEntityDefault := entities |}.

Definition registry (cs : list KmipClusterInfo) : CryptoManagerKmip :=
  {| KmipServers := cs; keyIDToProviderID := ∅ |}.

(** Whether the resolution loop of [GenerateKey] takes a cluster as the
    provider: it carries the requested ID, or, without one, the flag
    [UseAsDefault]. *)
Definition selects (req : GenerateKeyRequest) (c : KmipClusterInfo) : Prop :=
  match KeyProvider req with
  | None => UseAsDefault c = true
  | Some kp => Id kp = Id (ClusterId c)
  end.

(** The number of returned records that carry a given key ID. *)
Definition records_of (keyID : string) (keys : list CryptoKeyId) : nat :=
  length (filter (λ k, KeyId k = keyID) keys).

(** The data model's identification of clusters and servers: no two
    clusters of the registry share an ID, no two servers of a cluster share
    a name. *)
Definition unique_cluster_ids (cs : list KmipClusterInfo) : Prop :=
  NoDup (cluster_ids cs).

Definition unique_server_names (cs : list KmipClusterInfo) : Prop :=
  ∀ c, c ∈ cs → NoDup (Name <$> Servers c).

(** The status record of a cluster with all of its servers, all healthy. *)
Definition healthy_status (c : KmipClusterInfo) : CryptoManagerKmipClusterStatus :=
  {| Status_ClusterId := {| Id := Id (ClusterId c) |};
     Status_ManagementType := ManagementType c;
     OverallStatus := ManagedEntityStatusGreen;
     Status_Servers := green_server <$> Servers c |}.

(** How many clusters of a list carry an ID, and how many status records
    of a result do. *)
Definition occurrences (id : string) (cs : list KmipClusterInfo) : nat :=
  length (filter (λ c, Id (ClusterId c) = id) cs).

Definition status_records_of (id : string)
    (l : list CryptoManagerKmipClusterStatus) : nat :=
  length (filter (λ r, Id (Status_ClusterId r) = id) l).

(** The invariant of the default assignments: at most one cluster, counted
    by position in the registry, has [UseAsDefault] set, and an entity is
    among the entity defaults of at most one cluster. *)
Definition one_default (cs : list KmipClusterInfo) : Prop :=
  ∀ i j ci cj,
    cs !! i = Some ci → cs !! j = Some cj →
    UseAsDefault ci = true → UseAsDefault cj = true → i = j.

Definition one_entity_default (cs : list KmipClusterInfo) : Prop :=
  ∀ i j ci cj e,
    cs !! i = Some ci → cs !! j = Some cj →
    e ∈ UseAsEntityDefault ci → e ∈ UseAsEntityDefault cj → i = j.

Definition default_invariant (cs : list KmipClusterInfo) : Prop :=
  one_default cs ∧ one_entity_default cs.

(** A cluster after a call that left its ID alone and gave it no new
    default of either kind. *)
Definition keeps_defaults (c c' : KmipClusterInfo) : Prop :=
  ClusterId c' = ClusterId c
  ∧ (UseAsDefault c' = true → UseAsDefault c = true)
  ∧ (∀ e, e ∈ UseAsEntityDefault c' → e ∈ UseAsEntityDefault c).

(** ** The client's membership predicates and status accessors
    (crypto/manager_kmip.go)

    A client method reaches the simulator's method of the same request; an
    error the client returns is a [Fault_] with the error's message. *)



(** The loop over [clusters[i].Servers], returning at the first equal name. *)
Fixpoint IsValidServer_servers (serverName : string)
    (servers : list KmipServerInfo) : bool :=
  match servers with
  | [] => false
  | s :: servers' =>
      if decide (Name s = serverName) then true
      else IsValidServer_servers serverName servers'
  end.

(** The loop over the clusters: a cluster with the requested ID that lacks
    the server does not end the search. *)
Fixpoint IsValidServer_loop (providerID serverName : string)
    (clusters : list KmipClusterInfo) : bool :=
  match clusters with
  | [] => false
  | c :: clusters' =>
      if decide (Id (ClusterId c) = providerID) then
        if IsValidServer_servers serverName (Servers c) then true
        else IsValidServer_loop providerID serverName clusters'
      else IsValidServer_loop providerID serverName clusters'
  end.

Definition IsValidServer (m : CryptoManagerKmip)
    (providerID serverName : string) : bool :=
  IsValidServer_loop providerID serverName
    (ListKmipServers m {| ListKmipServers_Limit := None |}).









(** ** Predicates used below *)

(** The first cluster of a list that carries an ID. *)
Definition first_cluster (id : string) (cs : list KmipClusterInfo)
    : option KmipClusterInfo :=
  head (filter (λ c, Id (ClusterId c) = id) cs).

(** Whether the loop of [GetDefaultKmsCluster] takes a cluster for the
    entity, or for the global default without one. *)
Definition default_for (entity : option ManagedObjectReference)
    (c : KmipClusterInfo) : Prop :=
  match entity with
  | Some e => e ∈ UseAsEntityDefault c
  | None => UseAsDefault c = true
  end.

Global Instance default_for_dec entity c : Decision (default_for entity c).
Proof. destruct entity; simpl; apply _. Defined.

(** The state a call leaves and whether its body is a fault, for the calls
    that validate before they write. *)
Definition validating_call (c : Call) : bool :=
  match c with
  | CallSetDefaultKmsCluster _ | CallMarkDefault _ => false
  | _ => true
  end.

Definition faults (nativeKeyProvider : string) (m : CryptoManagerKmip)
    (c : Call) : bool :=
  match c with
  | CallRegisterKmsCluster req => is_fault (RegisterKmsCluster m req).2
  | CallUnregisterKmsCluster req => is_fault (UnregisterKmsCluster m req).2
  | CallRegisterKmipServer req => is_fault (RegisterKmipServer m req).2
  | CallUpdateKmipServer req => is_fault (UpdateKmipServer m req).2
  | CallRemoveKmipServer req => is_fault (RemoveKmipServer m req).2
  | CallSetDefaultKmsCluster req => is_fault (SetDefaultKmsCluster m req).2
  | CallMarkDefault req => is_fault (MarkDefault m req).2
  | CallGenerateKey req newKey =>
      is_fault (GenerateKey nativeKeyProvider m req newKey).2
  end.

(** Whether a cluster carries an ID and has a server of a name. *)
Definition has_server (providerID serverName : string) (c : KmipClusterInfo)
    : Prop :=
  Id (ClusterId c) = providerID ∧ serverName ∈ Name <$> Servers c.

Global Instance has_server_dec providerID serverName c :
  Decision (has_server providerID serverName c).
Proof. unfold has_server. apply _. Defined.

(** The clusters the loop of [GetDefaultKmsCluster] can stop at: those it
    takes for the entity that have a non-empty ID. *)
Definition default_candidate (entity : option ManagedObjectReference)
    (c : KmipClusterInfo) : Prop :=
  default_for entity c ∧ Id (ClusterId c) ≠ "".

Global Instance default_candidate_dec entity c :
  Decision (default_candidate entity c).
Proof. unfold default_candidate. apply _. Defined.

Definition GetDefault_request (entity : option ManagedObjectReference)
    (defaultsToParent : option bool) : GetDefaultKmsClusterRequest :=
  {| GetDefault_Entity := entity; DefaultsToParent := defaultsToParent |}.

(** The server calls rewrite only the server list of a cluster. *)
Definition same_but_servers (c c' : KmipClusterInfo) : Prop :=
  ClusterId c' = ClusterId c
  ∧ UseAsDefault c' = UseAsDefault c
  ∧ ManagementType c' = ManagementType c
  ∧ UseAsEntityDefault c' = UseAsEntityDefault c.

(** No cluster lists an entity twice among its entity defaults. *)
Definition entities_listed_once (cs : list KmipClusterInfo) : Prop :=
  Forall (λ c, NoDup (UseAsEntityDefault c)) cs.

(** * Properties *)

(** ** Facts about the loops of [SetDefaultKmsCluster] *)

Lemma entity_found_elem_of e l : entity_found e l = true ↔ e ∈ l.
Proof.
  induction l as [|x l IH]; simpl.
  - split; [done | by intros ?%elem_of_nil].
  - destruct (decide (e = x)) as [->|Hne].
    + split; [intros _; left | done].
    + rewrite IH. split; [by right | by intros [?|?]%elem_of_cons].
Qed.

Lemma entity_found_false e l : entity_found e l = false ↔ e ∉ l.
Proof.
  rewrite <- entity_found_elem_of. by destruct (entity_found e l).
Qed.

Lemma SetDefault_loop_unfold req cs v :
  SetDefault_loop req cs v =
    ((λ c, (SetDefault_visit req c).1) <$> cs,
     v || existsb (λ c, (SetDefault_visit req c).2) cs).
Proof.
  revert v. induction cs as [|c cs IH]; intros v; simpl.
  - by rewrite orb_false_r.
  - destruct (SetDefault_visit req c) as [c' b] eqn:Hc.
    rewrite IH. simpl. by rewrite orb_assoc.
Qed.

Lemma SetDefaultKmsCluster_servers m req :
  KmipServers (SetDefaultKmsCluster m req).1 =
    (λ c, (SetDefault_visit req c).1) <$> KmipServers m.
Proof.
  unfold SetDefaultKmsCluster. rewrite SetDefault_loop_unfold. done.
Qed.

Lemma SetDefaultKmsCluster_keys m req :
  keyIDToProviderID (SetDefaultKmsCluster m req).1 = keyIDToProviderID m.
Proof.
  unfold SetDefaultKmsCluster. rewrite SetDefault_loop_unfold. done.
Qed.

Lemma SetDefaultKmsCluster_body m req :
  (SetDefaultKmsCluster m req).2 =
    if bool_decide (is_Some (explicit_cluster req))
       && negb (existsb (λ c, (SetDefault_visit req c).2) (KmipServers m))
    then Fault_ InvalidClusterID else Res ().
Proof.
  unfold SetDefaultKmsCluster. rewrite SetDefault_loop_unfold. done.
Qed.

(** With an explicit cluster ID, [validClusterID] is set exactly by the
    clusters that carry it. *)
Lemma SetDefault_visit_valid req id c :
  explicit_cluster req = Some id →
  (SetDefault_visit req c).2 = bool_decide (Id (ClusterId c) = id).
Proof.
  intros Hex. unfold SetDefault_visit. rewrite Hex.
  destruct (decide (Id (ClusterId c) ≠ id)) as [Hne|Heq].
  - symmetry. by apply bool_decide_eq_false_2.
  - apply dec_stable in Heq. rewrite bool_decide_eq_true_2 by done.
    destruct (SetDefault_Entity req); [|done].
    by destruct (entity_found _ _).
Qed.

Lemma SetDefault_valid_registered req id cs :
  explicit_cluster req = Some id →
  existsb (λ c, (SetDefault_visit req c).2) cs = bool_decide (id ∈ cluster_ids cs).
Proof.
  intros Hex. induction cs as [|c cs IH]; cbn [existsb].
  - symmetry. apply bool_decide_eq_false_2. by intros ?%elem_of_nil.
  - rewrite IH, (SetDefault_visit_valid _ id), <- bool_decide_or by done.
    apply bool_decide_ext. unfold cluster_ids. rewrite fmap_cons, elem_of_cons.
    split; (intros [?|?]; [left; congruence | by right]).
Qed.

Lemma explicit_cluster_Some id e :
  id ≠ "" →
  explicit_cluster {| SetDefault_ClusterId := Some {| Id := id |};
                      SetDefault_Entity := e |} = Some id.
Proof. intros Hne. unfold explicit_cluster. simpl. by rewrite decide_True. Qed.

(** ** MarkDefault and SetDefaultKmsCluster *)

(** C8: for every state and every cluster ID, the empty string and
    unregistered IDs included, [MarkDefault] leaves the same state and returns
    the same body as [SetDefaultKmsCluster] with that cluster ID and no
    entity; the same holds through the client, where [MarkDefault] always
    sends the ID and [SetDefaultKmsClusterId] omits an empty one. *)
Theorem MarkDefault_is_SetDefault_without_entity :
  ∀ (m : CryptoManagerKmip) (clusterID : string),
    MarkDefault m {| MarkDefault_ClusterId := {| Id := clusterID |} |} =
      SetDefaultKmsCluster m
        {| SetDefault_ClusterId := Some {| Id := clusterID |};
           SetDefault_Entity := None |}
    ∧ client_MarkDefault m clusterID = SetDefaultKmsClusterId m clusterID None.
Proof.
  intros m clusterID. split; [done|].
  unfold client_MarkDefault, SetDefaultKmsClusterId, MarkDefault. simpl.
  destruct (decide (clusterID ≠ "")) as [Hne|Heq]; [done|].
  apply dec_stable in Heq. subst clusterID.
  unfold SetDefaultKmsCluster. rewrite !SetDefault_loop_unfold.
  done.
Qed.

(** ** GetDefaultKmsCluster *)

(** C7: the body [GetDefaultKmsCluster] returns does not depend on the
    request's [DefaultsToParent], whatever the state and the entity; through
    the client, passing [true] or [false] gives the same cluster ID or the
    same fault. *)
Theorem GetDefaultKmsCluster_ignores_DefaultsToParent :
  ∀ (m : CryptoManagerKmip) (entity : option ManagedObjectReference)
    (p q : option bool),
    GetDefaultKmsCluster m
      {| GetDefault_Entity := entity; DefaultsToParent := p |} =
    GetDefaultKmsCluster m
      {| GetDefault_Entity := entity; DefaultsToParent := q |}
    ∧ GetDefaultKmsClusterID m entity true =
      GetDefaultKmsClusterID m entity false.
Proof. intros m entity p q. split; reflexivity. Qed.

(** ** SetDefaultKmsCluster with an explicit cluster ID *)

Lemma SetDefault_visit_other C e c :
  C ≠ "" → Id (ClusterId c) ≠ C →
  (SetDefault_visit (SetDefault_request C e) c).1 = cleared c.
Proof.
  intros HC Hne. unfold SetDefault_visit, SetDefault_request.
  rewrite explicit_cluster_Some by done. by rewrite decide_True.
Qed.

Lemma SetDefault_visit_target_entity C E c :
  C ≠ "" → Id (ClusterId c) = C →
  (SetDefault_visit (SetDefault_request C (Some E)) c).1 =
    if decide (E ∈ UseAsEntityDefault c) then c
    else set_UseAsEntityDefault (UseAsEntityDefault c ++ [E]) c.
Proof.
  intros HC Heq. unfold SetDefault_visit, SetDefault_request.
  rewrite explicit_cluster_Some by done.
  rewrite decide_False by (intros Hne; by apply Hne). simpl.
  destruct (entity_found E (UseAsEntityDefault c)) eqn:Hf.
  - apply entity_found_elem_of in Hf. by rewrite decide_True.
  - apply entity_found_false in Hf. by rewrite decide_False.
Qed.

(** C2: with a non-empty cluster ID that no cluster carries, the call
    returns the fault "Invalid cluster ID", yet the state it leaves has every
    cluster, in registry order, with [UseAsDefault] cleared and no entity
    default; so every flag is false afterwards, and a state that had a
    default is not the state that is left. *)
Theorem SetDefault_unregistered_faults_after_clearing :
  ∀ (m : CryptoManagerKmip) (clusterID : string)
    (entity : option ManagedObjectReference),
    clusterID ≠ "" →
    clusterID ∉ cluster_ids (KmipServers m) →
    let r := SetDefaultKmsCluster m (SetDefault_request clusterID entity) in
    r.2 = Fault_ InvalidClusterID
    ∧ KmipServers r.1 = cleared <$> KmipServers m
    ∧ keyIDToProviderID r.1 = keyIDToProviderID m
    ∧ (∀ c, c ∈ KmipServers r.1 → UseAsDefault c = false)
    ∧ ((∃ c, c ∈ KmipServers m ∧ UseAsDefault c = true) → r.1 ≠ m).
Proof.
  intros m clusterID entity Hne Hnot r.
  assert (Hr : KmipServers r.1 = cleared <$> KmipServers m).
  { subst r. rewrite SetDefaultKmsCluster_servers.
    apply list_fmap_ext. intros i c Hc.
    apply SetDefault_visit_other; [done|].
    intros Heq. apply Hnot. unfold cluster_ids.
    apply list_elem_of_fmap. exists c. split; [done|].
    by eapply list_elem_of_lookup_2. }
  assert (Hflags : ∀ c, c ∈ KmipServers r.1 → UseAsDefault c = false).
  { intros c. rewrite Hr. intros (c0 & -> & _)%list_elem_of_fmap. done. }
  split_and!; [|done|apply SetDefaultKmsCluster_keys|done|].
  - subst r. rewrite SetDefaultKmsCluster_body.
    rewrite (SetDefault_valid_registered _ clusterID)
      by by apply explicit_cluster_Some.
    unfold SetDefault_request. rewrite explicit_cluster_Some by done.
    rewrite bool_decide_eq_true_2 by eauto.
    by rewrite bool_decide_eq_false_2.
  - intros (c & Hc & Htrue) Heq. rewrite Heq in Hflags.
    specialize (Hflags c Hc). congruence.
Qed.

Lemma SetDefault_unregistered_faults_after_clearing_witness :
  let m := registry [cluster "pA" [] true [vm2]; cluster "pB" [] false []] in
  let r := SetDefaultKmsCluster m (SetDefault_request "pC" None) in
  r.2 = Fault_ InvalidClusterID
  ∧ KmipServers r.1 = cleared <$> KmipServers m
  ∧ keyIDToProviderID r.1 = keyIDToProviderID m
  ∧ (∀ c, c ∈ KmipServers r.1 → UseAsDefault c = false)
  ∧ ((∃ c, c ∈ KmipServers m ∧ UseAsDefault c = true) → r.1 ≠ m).
Proof.
  apply (SetDefault_unregistered_faults_after_clearing
           (registry [cluster "pA" [] true [vm2]; cluster "pB" [] false []])
           "pC" None).
  - discriminate.
  - by apply (bool_decide_unpack _).
Defined.

(** C1 as worded fails: with cluster pA the global default and the
    entity default of vm-2, registering vm-1 as an entity default of pB
    clears pA's [UseAsDefault] flag (and its entity default vm-2). *)
Lemma SetDefault_entity_frame_fails :
  let m := registry [cluster "pA" [] true [vm2]; cluster "pB" [] false []] in
  "pB" ≠ "" ∧ "pB" ∈ cluster_ids (KmipServers m)
  ∧ ¬ SetDefault_entity_frame m "pB" vm1.
Proof.
  split_and!; [discriminate | by apply (bool_decide_unpack _) |].
  intros (_ & _ & Hframe).
  destruct (Hframe 0 (cluster "pA" [] true [vm2]) (cluster "pA" [] false [])
              eq_refl eq_refl) as [_ Hother].
  destruct Hother as (_ & Hflag & _); [discriminate|].
  discriminate Hflag.
Qed.

(** C1 (amended): for a registered, non-empty cluster ID [C] and an entity
    [E], the call succeeds; the ledger, the order and number of clusters, and
    every cluster's ID, servers and management type are unchanged; a cluster
    named [C] keeps its [UseAsDefault] flag and gets [E] appended to its
    entity defaults unless it is already there; every other cluster is left
    with [UseAsDefault] cleared and with no entity default at all. *)
Theorem SetDefault_entity_resets_other_clusters :
  ∀ (m : CryptoManagerKmip) (C : string) (E : ManagedObjectReference),
    C ≠ "" →
    C ∈ cluster_ids (KmipServers m) →
    let r := SetDefaultKmsCluster m (SetDefault_request C (Some E)) in
    r.2 = Res ()
    ∧ keyIDToProviderID r.1 = keyIDToProviderID m
    ∧ length (KmipServers r.1) = length (KmipServers m)
    ∧ ∀ i c, KmipServers m !! i = Some c →
        ∃ c', KmipServers r.1 !! i = Some c'
          ∧ ClusterId c' = ClusterId c
          ∧ Servers c' = Servers c
          ∧ ManagementType c' = ManagementType c
          ∧ (Id (ClusterId c) = C →
               UseAsDefault c' = UseAsDefault c
               ∧ E ∈ UseAsEntityDefault c'
               ∧ UseAsEntityDefault c' =
                   if decide (E ∈ UseAsEntityDefault c)
                   then UseAsEntityDefault c
                   else UseAsEntityDefault c ++ [E])
          ∧ (Id (ClusterId c) ≠ C →
               UseAsDefault c' = false ∧ UseAsEntityDefault c' = []).
Proof.
  intros m C E HC Hreg r. subst r. split_and!.
  - rewrite SetDefaultKmsCluster_body.
    rewrite (SetDefault_valid_registered _ C) by by apply explicit_cluster_Some.
    by rewrite (bool_decide_eq_true_2 (C ∈ _)), andb_false_r.
  - apply SetDefaultKmsCluster_keys.
  - by rewrite SetDefaultKmsCluster_servers, length_fmap.
  - intros i c Hc. rewrite SetDefaultKmsCluster_servers, list_lookup_fmap, Hc.
    eexists. split; [reflexivity|].
    destruct (decide (Id (ClusterId c) = C)) as [Heq|Hne].
    + rewrite SetDefault_visit_target_entity by done.
      destruct (decide (E ∈ UseAsEntityDefault c)) as [Hin|Hnin].
      * split_and!; try done; intros _; by rewrite ?decide_True.
      * split_and!; try done; intros _; simpl; split_and!; try done.
        apply elem_of_app. right. by apply list_elem_of_singleton.
    + rewrite SetDefault_visit_other by done. by split_and!.
Qed.

Lemma SetDefault_entity_resets_other_clusters_witness :
  let m := registry [cluster "pA" [] true [vm2]; cluster "pB" [] false []] in
  let r := SetDefaultKmsCluster m (SetDefault_request "pB" (Some vm1)) in
  r.2 = Res ()
  ∧ keyIDToProviderID r.1 = keyIDToProviderID m
  ∧ length (KmipServers r.1) = length (KmipServers m)
  ∧ ∀ i c, KmipServers m !! i = Some c →
      ∃ c', KmipServers r.1 !! i = Some c'
        ∧ ClusterId c' = ClusterId c
        ∧ Servers c' = Servers c
        ∧ ManagementType c' = ManagementType c
        ∧ (Id (ClusterId c) = "pB" →
             UseAsDefault c' = UseAsDefault c
             ∧ vm1 ∈ UseAsEntityDefault c'
             ∧ UseAsEntityDefault c' =
                 if decide (vm1 ∈ UseAsEntityDefault c)
                 then UseAsEntityDefault c
                 else UseAsEntityDefault c ++ [vm1])
        ∧ (Id (ClusterId c) ≠ "pB" →
             UseAsDefault c' = false ∧ UseAsEntityDefault c' = []).
Proof.
  apply (SetDefault_entity_resets_other_clusters
           (registry [cluster "pA" [] true [vm2]; cluster "pB" [] false []])
           "pB" vm1).
  - discriminate.
  - by apply (bool_decide_unpack _).
Defined.

(** ** Limits of ListKmipServers and ListKeys *)

Lemma effective_limit_zero len : effective_limit len (Some 0%Z) = 0%Z.
Proof.
  unfold effective_limit. destruct (0 <? Z.of_nat len)%Z eqn:Hlt; simpl.
  - done.
  - apply Z.ltb_ge in Hlt. lia.
Qed.

Lemma effective_limit_out_of_range len n :
  (n < 0 ∨ Z.of_nat len ≤ n)%Z → effective_limit len (Some n) = Z.of_nat len.
Proof.
  intros Hn. unfold effective_limit.
  destruct (0 <=? n)%Z eqn:H0; [|done].
  destruct (n <? Z.of_nat len)%Z eqn:H1; [|done].
  apply Z.leb_le in H0. apply Z.ltb_lt in H1. lia.
Qed.

Lemma effective_limit_range len Limit :
  (0 ≤ effective_limit len Limit ≤ Z.of_nat len)%Z.
Proof.
  unfold effective_limit. destruct Limit as [n|]; [|lia].
  destruct (0 <=? n)%Z eqn:H0; [|simpl; lia].
  destruct (n <? Z.of_nat len)%Z eqn:H1; [|simpl; lia].
  apply Z.leb_le in H0. apply Z.ltb_lt in H1. simpl. lia.
Qed.

(** The loop of [ListKeys] appends the records of the first [limit - i]
    entries it still has to visit. *)
Lemma ListKeys_loop_take order :
  ∀ (limit i : Z) (Returnval : list CryptoKeyId),
    (0 ≤ i ≤ limit)%Z →
    ListKeys_loop limit order i Returnval =
      Returnval ++ (key_record <$> take (Z.to_nat (limit - i)) order).
Proof.
  induction order as [|e rest IH]; intros limit i ret Hi; simpl.
  - by rewrite take_nil, app_nil_r.
  - destruct (limit <=? i)%Z eqn:Hle.
    + apply Z.leb_le in Hle. replace (limit - i)%Z with 0%Z by lia.
      by rewrite app_nil_r.
    + apply Z.leb_gt in Hle. rewrite IH by lia.
      replace (Z.to_nat (limit - i)) with (S (Z.to_nat (limit - (i + 1)))) by lia.
      by rewrite <- app_assoc.
Qed.

Lemma range_order_length k order : range_order k order → length order = size k.
Proof.
  unfold range_order. intros ->. by rewrite length_map_to_list.
Qed.

Lemma ListKeys_take m req order :
  range_order (keyIDToProviderID m) order →
  ListKeys m req order =
    key_record <$>
      take (Z.to_nat (effective_limit (size (keyIDToProviderID m))
                        (ListKeys_Limit req))) order.
Proof.
  intros Hord. unfold ListKeys.
  pose proof (effective_limit_range (size (keyIDToProviderID m))
                (ListKeys_Limit req)) as Hr.
  destruct (decide (0 < size (keyIDToProviderID m))) as [Hpos|Hzero].
  - rewrite ListKeys_loop_take by lia. by rewrite Z.sub_0_r.
  - apply range_order_length in Hord.
    destruct order; [by rewrite take_nil | simpl in Hord; lia].
Qed.

(** C9: a limit of 0 is honoured as a count, by both listings and in every
    state: the result is empty.  A negative limit, or one that is at least
    the number of stored entries, returns every entry: the whole registry in
    order, and one record per ledger entry in the order the map is visited. *)
Theorem limit_zero_lists_nothing_out_of_range_lists_all :
  ∀ (m : CryptoManagerKmip),
    ListKmipServers m {| ListKmipServers_Limit := Some 0%Z |} = []
    ∧ (∀ order, ListKeys m {| ListKeys_Limit := Some 0%Z |} order = [])
    ∧ (∀ n : Z,
         (n < 0 ∨ Z.of_nat (length (KmipServers m)) ≤ n)%Z →
         ListKmipServers m {| ListKmipServers_Limit := Some n |} =
           KmipServers m)
    ∧ (∀ (n : Z) order,
         range_order (keyIDToProviderID m) order →
         (n < 0 ∨ Z.of_nat (size (keyIDToProviderID m)) ≤ n)%Z →
         ListKeys m {| ListKeys_Limit := Some n |} order = key_record <$> order).
Proof.
  intros m. split_and!.
  - unfold ListKmipServers. cbn [ListKmipServers_Limit].
    rewrite effective_limit_zero.
    by destruct (decide _).
  - intros order. unfold ListKeys. cbn [ListKeys_Limit].
    rewrite effective_limit_zero.
    destruct (decide _); [|done]. by destruct order.
  - intros n Hn. unfold ListKmipServers. cbn [ListKmipServers_Limit].
    rewrite effective_limit_out_of_range by done.
    destruct (decide _) as [Hpos|Hzero].
    + by rewrite Nat2Z.id, firstn_all.
    + destruct (KmipServers m); [done | simpl in Hzero; lia].
  - intros n order Hord Hn. rewrite ListKeys_take by done.
    cbn [ListKeys_Limit].
    rewrite effective_limit_out_of_range by done.
    rewrite Nat2Z.id, <- (range_order_length _ _ Hord). by rewrite firstn_all.
Qed.

Lemma limit_zero_lists_nothing_out_of_range_lists_all_witness :
  let m := {| KmipServers := [cluster "pA" [] true []; cluster "pB" [] false []];
              keyIDToProviderID := {[ "k1" := "pA"; "k2" := "pA" ]} |} in
  ListKmipServers m {| ListKmipServers_Limit := Some (-1)%Z |} = KmipServers m
  ∧ ListKmipServers m {| ListKmipServers_Limit := Some 2%Z |} = KmipServers m
  ∧ ListKeys m {| ListKeys_Limit := Some 7%Z |}
      (map_to_list (keyIDToProviderID m))
    = key_record <$> map_to_list (keyIDToProviderID m).
Proof.
  intros m.
  destruct (limit_zero_lists_nothing_out_of_range_lists_all m)
    as (_ & _ & Hclusters & Hkeys).
  split_and!.
  - apply Hclusters. left. lia.
  - apply Hclusters. right. simpl. lia.
  - apply Hkeys; [by unfold range_order|]. right. vm_compute. discriminate.
Defined.

(** ** GenerateKey: resolving the provider *)

Lemma GenerateKey_pick_cases req c provider :
  (selects req c ∧ GenerateKey_pick req c provider = c)
  ∨ (¬ selects req c ∧ GenerateKey_pick req c provider = provider).
Proof.
  unfold selects, GenerateKey_pick. destruct (KeyProvider req) as [kp|].
  - destruct (decide (Id kp = Id (ClusterId c))); [by left | by right].
  - destruct (UseAsDefault c); [by left | right; split; [discriminate | done]].
Qed.

(** A provider with a non-empty ID is a registered cluster that the request
    selects: the named cluster, or one flagged [UseAsDefault]. *)
Lemma GenerateKey_loop_resolved req cs :
  ∀ provider,
    Id (ClusterId provider) = "" →
    Id (ClusterId (GenerateKey_loop req cs provider)) ≠ "" →
    GenerateKey_loop req cs provider ∈ cs
    ∧ selects req (GenerateKey_loop req cs provider).
Proof.
  induction cs as [|c cs IH]; intros provider Hempty Hres; simpl in *.
  - done.
  - destruct (GenerateKey_pick_cases req c provider) as [[Hsel Hp]|[Hsel Hp]];
      rewrite Hp in Hres |- *.
    + destruct (decide (Id (ClusterId c) ≠ "")) as [Hne|He].
      * split; [left | done].
      * apply dec_stable in He. destruct (IH c He Hres) as [Hin Hs].
        split; [by right | done].
    + rewrite decide_False in Hres |- * by (intros Hne; by apply Hne).
      destruct (IH provider Hempty Hres) as [Hin Hs]. split; [by right | done].
Qed.

(** Conversely, a selected cluster with a non-empty ID makes the loop end
    with a provider that has a non-empty ID. *)
Lemma GenerateKey_loop_resolves req cs :
  ∀ provider c,
    c ∈ cs → selects req c → Id (ClusterId c) ≠ "" →
    Id (ClusterId (GenerateKey_loop req cs provider)) ≠ "".
Proof.
  induction cs as [|c0 cs IH]; intros provider c Hin Hsel Hne; simpl.
  - by apply elem_of_nil in Hin.
  - match goal with |- context [decide (Id (ClusterId ?p) ≠ "")] =>
      destruct (decide (Id (ClusterId p) ≠ "")) as [Hp|Hp]; [done|]
    end.
    apply elem_of_cons in Hin as [->|Hin]; [|by eapply IH].
    destruct (GenerateKey_pick_cases req c0 provider) as [[_ Heq]|[Hn _]];
      [|done].
    rewrite Heq in Hp. done.
Qed.

Lemma GenerateKey_provider_resolved m req :
  Id (ClusterId (GenerateKey_provider m req)) ≠ "" →
  GenerateKey_provider m req ∈ KmipServers m
  ∧ selects req (GenerateKey_provider m req).
Proof. by apply GenerateKey_loop_resolved. Qed.

(** C4: whenever the provider [GenerateKey] resolves, by the cluster ID of
    the request or by the [UseAsDefault] flag, has the native management
    type, the body is the fault "Cannot generate keys with native key
    provider" and the state, the ledger with it, is the one before the call.
    In particular this is so for a named cluster when the clusters of that
    name are native, whatever their [UseAsDefault] flag. *)
Theorem GenerateKey_native_provider_faults :
  ∀ (nativeKeyProvider : string) (m : CryptoManagerKmip)
    (req : GenerateKeyRequest) (newKey : string),
    (Id (ClusterId (GenerateKey_provider m req)) ≠ "" →
     ManagementType (GenerateKey_provider m req) = nativeKeyProvider →
     GenerateKey nativeKeyProvider m req newKey =
       (m, Fault_ NativeProviderUnsupported))
    ∧ (∀ c, c ∈ KmipServers m → selects req c → Id (ClusterId c) ≠ "" →
       (∀ c', c' ∈ KmipServers m → selects req c' →
              ManagementType c' = nativeKeyProvider) →
       GenerateKey nativeKeyProvider m req newKey =
         (m, Fault_ NativeProviderUnsupported)).
Proof.
  intros native m req newKey.
  assert (Hmain : Id (ClusterId (GenerateKey_provider m req)) ≠ "" →
     ManagementType (GenerateKey_provider m req) = native →
     GenerateKey native m req newKey = (m, Fault_ NativeProviderUnsupported)).
  { intros Hid Hnative. unfold GenerateKey.
    rewrite decide_False by done. by rewrite decide_True. }
  split; [done|].
  intros c Hc Hsel Hne Hall.
  assert (Hid : Id (ClusterId (GenerateKey_provider m req)) ≠ "")
    by by eapply GenerateKey_loop_resolves.
  apply Hmain; [done|].
  destruct (GenerateKey_provider_resolved m req Hid) as [Hin Hs].
  by apply Hall.
Qed.

Lemma GenerateKey_native_provider_faults_witness :
  let m := registry
             [ {| ClusterId := {| Id := "pN" |}; Servers := [];
                  UseAsDefault := true; ManagementType := "nativeProvider";
                  UseAsEntityDefault := [] |};
               cluster "pA" [] false [] ] in
  GenerateKey "nativeProvider" m {| KeyProvider := None |} "k1" =
    (m, Fault_ NativeProviderUnsupported)
  ∧ GenerateKey "nativeProvider" m
      {| KeyProvider := Some {| Id := "pN" |} |} "k1" =
    (m, Fault_ NativeProviderUnsupported).
Proof.
  intros m. split.
  - apply (GenerateKey_native_provider_faults "nativeProvider" m
             {| KeyProvider := None |} "k1"); [discriminate | reflexivity].
  - apply (GenerateKey_native_provider_faults "nativeProvider" m
             {| KeyProvider := Some {| Id := "pN" |} |} "k1");
      [discriminate | reflexivity].
Defined.

(** ** The ledger across calls *)

Lemma RegisterKmsCluster_keys m req :
  keyIDToProviderID (RegisterKmsCluster m req).1 = keyIDToProviderID m.
Proof. unfold RegisterKmsCluster. by destruct (RegisterKmsCluster_loop _ _ _). Qed.

Lemma UnregisterKmsCluster_keys m req :
  keyIDToProviderID (UnregisterKmsCluster m req).1 = keyIDToProviderID m.
Proof.
  unfold UnregisterKmsCluster. by destruct (UnregisterKmsCluster_loop _ _ _ _).
Qed.

Lemma RegisterKmipServer_keys m req :
  keyIDToProviderID (RegisterKmipServer m req).1 = keyIDToProviderID m.
Proof.
  unfold RegisterKmipServer.
  by destruct (RegisterKmipServer_loop _ _) as [[cs v] a].
Qed.

Lemma RemoveKmipServer_keys m req :
  keyIDToProviderID (RemoveKmipServer m req).1 = keyIDToProviderID m.
Proof.
  unfold RemoveKmipServer. by destruct (RemoveKmipServer_loop _ _) as [[cs v] a].
Qed.

Lemma UpdateKmipServer_keys m req :
  keyIDToProviderID (UpdateKmipServer m req).1 = keyIDToProviderID m.
Proof.
  unfold UpdateKmipServer. by destruct (UpdateKmipServer_loop _ _) as [[cs v] a].
Qed.

Lemma GenerateKey_keys native m req newKey :
  keyIDToProviderID (GenerateKey native m req newKey).1 = keyIDToProviderID m
  ∨ ∃ id, keyIDToProviderID (GenerateKey native m req newKey).1 =
            <[newKey := id]> (keyIDToProviderID m).
Proof.
  unfold GenerateKey. repeat destruct (decide _); simpl; eauto.
Qed.

Lemma GenerateKey_servers native m req newKey :
  KmipServers (GenerateKey native m req newKey).1 = KmipServers m.
Proof. unfold GenerateKey. by repeat destruct (decide _). Qed.

(** No call removes a key from the ledger. *)
Lemma serve_keeps_keys native m call k :
  is_Some (keyIDToProviderID m !! k) →
  is_Some (keyIDToProviderID (serve native m call) !! k).
Proof.
  intros Hk. destruct call as [req|req|req|req|req|req|req|req newKey]; simpl.
  - by rewrite RegisterKmsCluster_keys.
  - by rewrite UnregisterKmsCluster_keys.
  - by rewrite RegisterKmipServer_keys.
  - by rewrite UpdateKmipServer_keys.
  - by rewrite RemoveKmipServer_keys.
  - by rewrite SetDefaultKmsCluster_keys.
  - unfold MarkDefault. by rewrite SetDefaultKmsCluster_keys.
  - destruct (GenerateKey_keys native m req newKey) as [->|[id ->]]; [done|].
    destruct (decide (newKey = k)) as [->|Hne].
    + rewrite lookup_insert_eq. eauto.
    + by rewrite lookup_insert_ne.
Qed.

Lemma serve_all_keeps_keys native calls :
  ∀ m k,
    is_Some (keyIDToProviderID m !! k) →
    is_Some (keyIDToProviderID (serve_all native m calls) !! k).
Proof.
  induction calls as [|call calls IH]; intros m k Hk; simpl; [done|].
  apply IH. by apply serve_keeps_keys.
Qed.

(** ** ListKeys without a limit, and IsValidKey *)

Lemma ListKeys_no_limit m order :
  range_order (keyIDToProviderID m) order →
  ListKeys m {| ListKeys_Limit := None |} order = key_record <$> order.
Proof.
  intros Hord. rewrite ListKeys_take by done. cbn [ListKeys_Limit].
  unfold effective_limit.
  rewrite Nat2Z.id, <- (range_order_length _ _ Hord). by rewrite firstn_all.
Qed.

Lemma IsValidKey_loop_true keyID keys :
  IsValidKey_loop keyID keys = true ↔ ∃ k, k ∈ keys ∧ KeyId k = keyID.
Proof.
  induction keys as [|k keys IH]; simpl.
  - split; [done | by intros (k & ?%elem_of_nil & _)].
  - destruct (decide (KeyId k = keyID)) as [Heq|Hne].
    + split; [|done]. intros _. exists k. split; [left | done].
    + rewrite IH. split.
      * intros (k' & Hin & Hk). exists k'. split; [by right | done].
      * intros (k' & [->|Hin]%elem_of_cons & Hk); [done|]. by exists k'.
Qed.

Lemma range_order_lookup k order keyID providerID :
  range_order k order → (keyID, providerID) ∈ order ↔ k !! keyID = Some providerID.
Proof.
  unfold range_order. intros ->. apply elem_of_map_to_list.
Qed.

Lemma range_order_NoDup k order : range_order k order → NoDup order.*1.
Proof.
  unfold range_order. intros ->. apply NoDup_fst_map_to_list.
Qed.

Lemma records_of_absent keyID (l : list (string * string)) :
  keyID ∉ l.*1 → records_of keyID (key_record <$> l) = 0.
Proof.
  unfold records_of. induction l as [|[k v] l IH]; intros Hnot; [done|].
  rewrite fmap_cons, not_elem_of_cons in Hnot. destruct Hnot as [Hne Hnot].
  simpl in Hne.
  rewrite fmap_cons, filter_cons_False by (simpl; congruence). by apply IH.
Qed.

Lemma records_of_once keyID (l : list (string * string)) :
  NoDup l.*1 → keyID ∈ l.*1 → records_of keyID (key_record <$> l) = 1.
Proof.
  induction l as [|[k v] l IH]; intros Hnd Hin.
  - by apply elem_of_nil in Hin.
  - rewrite fmap_cons in Hnd, Hin. apply NoDup_cons in Hnd as [Hk Hnd].
    simpl in Hk, Hin. unfold records_of in *. rewrite fmap_cons.
    destruct (decide (k = keyID)) as [->|Hne].
    + rewrite filter_cons_True by done. simpl. f_equal.
      by apply records_of_absent.
    + rewrite filter_cons_False by (simpl; congruence).
      apply IH; [done|]. apply elem_of_cons in Hin as [?|?]; [congruence|done].
Qed.

Lemma key_listed_once m keyID order :
  is_Some (keyIDToProviderID m !! keyID) →
  range_order (keyIDToProviderID m) order →
  IsValidKey m keyID order = true
  ∧ records_of keyID (ListKeys m {| ListKeys_Limit := None |} order) = 1.
Proof.
  intros [providerID Hk] Hord.
  apply (range_order_lookup _ _ _ _ Hord) in Hk.
  unfold IsValidKey. rewrite ListKeys_no_limit by done. split.
  - apply IsValidKey_loop_true. exists (key_record (keyID, providerID)).
    split; [|done]. apply list_elem_of_fmap. by exists (keyID, providerID).
  - apply records_of_once; [by eapply range_order_NoDup|].
    apply list_elem_of_fmap. by exists (keyID, providerID).
Qed.

(** C5: for a request that names cluster [X], a successful [GenerateKey]
    returns the new key ID with provider [X] and records it against [X] in
    the ledger; right after the call [ListKeys] without a limit returns that
    record, and after any further calls [IsValidKey] is true for the key and
    [ListKeys] without a limit returns exactly one record with its ID,
    whatever order the map is visited in.  The call does succeed when [X] is
    a non-empty registered ID whose clusters are not native. *)
Theorem GenerateKey_success_is_listed_once :
  ∀ (nativeKeyProvider : string) (m : CryptoManagerKmip) (X newKey : string),
    let req := {| KeyProvider := Some {| Id := X |} |} in
    (X ≠ "" → X ∈ cluster_ids (KmipServers m) →
     (∀ c, c ∈ KmipServers m → Id (ClusterId c) = X →
           ManagementType c ≠ nativeKeyProvider) →
     ∃ m' r, GenerateKey nativeKeyProvider m req newKey = (m', Res r))
    ∧ ∀ m' r,
        GenerateKey nativeKeyProvider m req newKey = (m', Res r) →
        Success r = true
        ∧ Result_KeyId r =
            {| KeyId := newKey; ProviderId := Some {| Id := X |} |}
        ∧ KmipServers m' = KmipServers m
        ∧ keyIDToProviderID m' = <[newKey := X]> (keyIDToProviderID m)
        ∧ (∀ order, range_order (keyIDToProviderID m') order →
             Result_KeyId r ∈ ListKeys m' {| ListKeys_Limit := None |} order)
        ∧ ∀ calls order,
            let m'' := serve_all nativeKeyProvider m' calls in
            range_order (keyIDToProviderID m'') order →
            IsValidKey m'' newKey order = true
            ∧ records_of newKey
                (ListKeys m'' {| ListKeys_Limit := None |} order) = 1.
Proof.
  intros native m X newKey req. split.
  - intros HX Hreg Hnon.
    apply list_elem_of_fmap in Hreg as (c & HcX & Hc).
    assert (Hid : Id (ClusterId (GenerateKey_provider m req)) ≠ "").
    { eapply (GenerateKey_loop_resolves req); [exact Hc | | by rewrite <- HcX].
      unfold selects. simpl. done. }
    destruct (GenerateKey_provider_resolved m req Hid) as [Hin Hsel].
    unfold GenerateKey. rewrite decide_False by done.
    rewrite decide_False; [by eauto|].
    apply Hnon; [done|]. unfold selects in Hsel. simpl in Hsel. done.
  - intros m' r Hgen. unfold GenerateKey in Hgen.
    destruct (decide (Id (ClusterId (GenerateKey_provider m req)) = ""))
      as [|Hid]; [done|].
    destruct (decide (ManagementType (GenerateKey_provider m req) = native));
      [done|].
    destruct (GenerateKey_provider_resolved m req Hid) as [_ Hsel].
    unfold selects in Hsel. simpl in Hsel. rewrite <- Hsel in Hgen.
    injection Hgen as <- <-. simpl.
    split_and!; try done.
    + intros order Hord. rewrite ListKeys_no_limit by done.
      apply list_elem_of_fmap. exists (newKey, X). split; [done|].
      apply (range_order_lookup _ _ _ _ Hord). simpl. apply lookup_insert_eq.
    + intros calls order Hord. apply key_listed_once; [|done].
      apply serve_all_keeps_keys. simpl. rewrite lookup_insert_eq. eauto.
Qed.

Lemma GenerateKey_success_is_listed_once_witness :
  let m := registry [cluster "pA" [server "s1"] false []] in
  let m' := with_keys {[ "k1" := "pA" ]} m in
  (∃ m1 r, GenerateKey "nativeProvider" m
             {| KeyProvider := Some {| Id := "pA" |} |} "k1" = (m1, Res r))
  ∧ GenerateKey "nativeProvider" m
      {| KeyProvider := Some {| Id := "pA" |} |} "k1"
    = (m', Res {| Success := true;
                  Result_KeyId := {| KeyId := "k1";
                                     ProviderId := Some {| Id := "pA" |} |} |})
  ∧ IsValidKey m' "k1" [("k1", "pA")] = true
  ∧ records_of "k1" (ListKeys m' {| ListKeys_Limit := None |} [("k1", "pA")]) = 1.
Proof.
  intros m m'.
  destruct (GenerateKey_success_is_listed_once "nativeProvider" m "pA" "k1")
    as [Hsucceeds Hafter].
  split; [|split; [reflexivity|]].
  - apply Hsucceeds.
    + discriminate.
    + by apply (bool_decide_unpack _).
    + intros c Hc _. apply list_elem_of_singleton in Hc as ->. discriminate.
  - destruct (Hafter m' _ eq_refl) as (_ & _ & _ & _ & _ & Hlater).
    apply (Hlater [] [("k1", "pA")]).
    unfold range_order. by vm_compute.
Defined.

(** ** The invariant of the default assignments *)

Lemma keeps_defaults_refl c : keeps_defaults c c.
Proof. by split_and!. Qed.

Lemma keeps_defaults_ids cs cs' :
  Forall2 keeps_defaults cs cs' → cluster_ids cs' = cluster_ids cs.
Proof.
  unfold cluster_ids. induction 1 as [|c c' cs cs' (Hid & _) _ IH]; [done|].
  rewrite !fmap_cons, IH. by rewrite Hid.
Qed.

(** Calls that only take defaults away keep the invariant. *)
Lemma keeps_defaults_invariant cs cs' :
  Forall2 keeps_defaults cs cs' →
  default_invariant cs → default_invariant cs'.
Proof.
  intros Hrel [Hone Hent]. split.
  - intros i j ci cj Hi Hj Hdi Hdj.
    destruct (Forall2_lookup_r _ _ _ _ _ Hrel Hi) as (ci0 & Hi0 & _ & Hti & _).
    destruct (Forall2_lookup_r _ _ _ _ _ Hrel Hj) as (cj0 & Hj0 & _ & Htj & _).
    eapply Hone; eauto.
  - intros i j ci cj e Hi Hj Hei Hej.
    destruct (Forall2_lookup_r _ _ _ _ _ Hrel Hi) as (ci0 & Hi0 & _ & _ & Hti).
    destruct (Forall2_lookup_r _ _ _ _ _ Hrel Hj) as (cj0 & Hj0 & _ & _ & Htj).
    eapply Hent; eauto.
Qed.

Lemma keeps_defaults_same_tail c c' cs :
  keeps_defaults c c' → Forall2 keeps_defaults (c :: cs) (c' :: cs).
Proof.
  intros Hc. constructor; [done|].
  apply Forall_Forall2_diag, Forall_forall. intros ? _. apply keeps_defaults_refl.
Qed.

(** *** SetDefaultKmsCluster *)

Lemma SetDefault_visit_id req c :
  ClusterId (SetDefault_visit req c).1 = ClusterId c.
Proof.
  unfold SetDefault_visit.
  repeat (match goal with
          | |- context [match ?x with _ => _ end] => destruct x
          end; simpl); done.
Qed.

(** Without an explicit cluster ID the call only removes defaults. *)
Lemma SetDefault_visit_keeps req c :
  explicit_cluster req = None →
  keeps_defaults c (SetDefault_visit req c).1.
Proof.
  intros Hex. unfold SetDefault_visit. rewrite Hex.
  destruct (SetDefault_Entity req) as [e|].
  - destruct (entity_index e (UseAsEntityDefault c) 0) as [x|];
      [|apply keeps_defaults_refl].
    split_and!; [done..|]. simpl. intros e'. apply list_elem_of_delete_inv.
  - split_and!; [done | simpl; discriminate | done].
Qed.

(** With an explicit cluster ID only the clusters that carry it can be left
    with a default of either kind. *)
Lemma SetDefault_visit_explicit req id c :
  explicit_cluster req = Some id →
  (UseAsDefault (SetDefault_visit req c).1 = true → Id (ClusterId c) = id)
  ∧ (∀ e, e ∈ UseAsEntityDefault (SetDefault_visit req c).1 →
          Id (ClusterId c) = id).
Proof.
  intros Hex. unfold SetDefault_visit. rewrite Hex.
  destruct (decide (Id (ClusterId c) ≠ id)) as [Hne|Heq]; simpl.
  - split; [discriminate | by intros e ?%elem_of_nil].
  - apply dec_stable in Heq. done.
Qed.

Lemma SetDefaultKmsCluster_invariant m req :
  unique_cluster_ids (KmipServers m) →
  default_invariant (KmipServers m) →
  unique_cluster_ids (KmipServers (SetDefaultKmsCluster m req).1)
  ∧ default_invariant (KmipServers (SetDefaultKmsCluster m req).1).
Proof.
  intros Hids Hinv. rewrite SetDefaultKmsCluster_servers.
  assert (Hsame : cluster_ids ((λ c, (SetDefault_visit req c).1)
                                 <$> KmipServers m)
                  = cluster_ids (KmipServers m)).
  { unfold cluster_ids. rewrite <- list_fmap_compose. apply list_fmap_ext.
    intros i c _. simpl. by rewrite SetDefault_visit_id. }
  split; [unfold unique_cluster_ids; by rewrite Hsame|].
  destruct (explicit_cluster req) as [id|] eqn:Hex.
  - assert (Hpos : ∀ i j ci cj,
              KmipServers m !! i = Some ci → KmipServers m !! j = Some cj →
              Id (ClusterId ci) = id → Id (ClusterId cj) = id → i = j).
    { intros i j ci cj Hi Hj Hci Hcj.
      eapply NoDup_lookup; [exact Hids | |];
        unfold cluster_ids; rewrite list_lookup_fmap.
      - rewrite Hi. simpl. by rewrite Hci.
      - rewrite Hj. simpl. by rewrite Hcj. }
    split.
    + intros i j ci cj Hi Hj Hdi Hdj.
      rewrite list_lookup_fmap in Hi, Hj.
      destruct (KmipServers m !! i) as [ci0|] eqn:Hi0; [|done].
      destruct (KmipServers m !! j) as [cj0|] eqn:Hj0; [|done].
      injection Hi as <-. injection Hj as <-.
      destruct (SetDefault_visit_explicit req id ci0 Hex) as [Hti _].
      destruct (SetDefault_visit_explicit req id cj0 Hex) as [Htj _].
      eapply Hpos; eauto.
    + intros i j ci cj e Hi Hj Hei Hej.
      rewrite list_lookup_fmap in Hi, Hj.
      destruct (KmipServers m !! i) as [ci0|] eqn:Hi0; [|done].
      destruct (KmipServers m !! j) as [cj0|] eqn:Hj0; [|done].
      injection Hi as <-. injection Hj as <-.
      destruct (SetDefault_visit_explicit req id ci0 Hex) as [_ Hti].
      destruct (SetDefault_visit_explicit req id cj0 Hex) as [_ Htj].
      eapply Hpos; eauto.
  - eapply keeps_defaults_invariant; [|exact Hinv].
    apply Forall2_fmap_r, Forall_Forall2_diag, Forall_forall.
    intros c _. by apply SetDefault_visit_keeps.
Qed.

(** *** RegisterKmsCluster and UnregisterKmsCluster *)

Lemma RegisterKmsCluster_loop_registered id cs fault :
  RegisterKmsCluster_loop id cs fault
  = fault || bool_decide (id ∈ cluster_ids cs).
Proof.
  revert fault. induction cs as [|c cs IH]; intros fault;
    cbn [RegisterKmsCluster_loop].
  - rewrite (bool_decide_eq_false_2 (id ∈ _)) by (by intros ?%elem_of_nil).
    by rewrite orb_false_r.
  - rewrite IH. unfold cluster_ids. rewrite fmap_cons.
    destruct (decide (id = Id (ClusterId c))) as [Heq|Hne].
    + rewrite (bool_decide_eq_true_2 (id ∈ _ :: _)) by (rewrite Heq; left).
      by rewrite orb_true_r.
    + f_equal. apply bool_decide_ext. rewrite elem_of_cons.
      split; [by right | by intros [?|?]].
Qed.

Lemma RegisterKmsCluster_invariant m req :
  unique_cluster_ids (KmipServers m) →
  default_invariant (KmipServers m) →
  unique_cluster_ids (KmipServers (RegisterKmsCluster m req).1)
  ∧ default_invariant (KmipServers (RegisterKmsCluster m req).1).
Proof.
  intros Hids [Hone Hent]. unfold RegisterKmsCluster.
  rewrite RegisterKmsCluster_loop_registered. simpl.
  destruct (bool_decide _) eqn:Hreg; [done|].
  apply bool_decide_eq_false in Hreg. simpl.
  unfold default_invariant. split_and!.
  - unfold unique_cluster_ids, cluster_ids. rewrite fmap_app.
    apply NoDup_app. split_and!; [done| |apply NoDup_singleton].
    intros id Hid Hnew. rewrite list_fmap_singleton in Hnew.
    apply list_elem_of_singleton in Hnew. simpl in Hnew. by subst id.
  - intros i j ci cj Hi Hj Hdi Hdj.
    apply lookup_app_Some in Hi as [Hi|[_ Hi]];
      [|apply list_lookup_singleton_Some in Hi as [_ <-]; done].
    apply lookup_app_Some in Hj as [Hj|[_ Hj]];
      [|apply list_lookup_singleton_Some in Hj as [_ <-]; done].
    eauto.
  - intros i j ci cj e Hi Hj Hei Hej.
    apply lookup_app_Some in Hi as [Hi|[_ Hi]];
      [|apply list_lookup_singleton_Some in Hi as [_ <-];
        by apply elem_of_nil in Hei].
    apply lookup_app_Some in Hj as [Hj|[_ Hj]];
      [|apply list_lookup_singleton_Some in Hj as [_ <-];
        by apply elem_of_nil in Hej].
    eauto.
Qed.

Lemma delete_invariant x cs :
  unique_cluster_ids cs → default_invariant cs →
  unique_cluster_ids (delete x cs) ∧ default_invariant (delete x cs).
Proof.
  intros Hids [Hone Hent]. unfold default_invariant. split_and!.
  - unfold unique_cluster_ids, cluster_ids. rewrite list_fmap_delete.
    eapply sublist_NoDup; [exact Hids | apply sublist_delete].
  - intros i j ci cj Hi Hj Hdi Hdj. rewrite list_lookup_delete in Hi, Hj.
    pose proof (Hone _ _ _ _ Hi Hj Hdi Hdj) as Heq.
    repeat destruct (decide _); lia.
  - intros i j ci cj e Hi Hj Hei Hej. rewrite list_lookup_delete in Hi, Hj.
    pose proof (Hent _ _ _ _ _ Hi Hj Hei Hej) as Heq.
    repeat destruct (decide _); lia.
Qed.

Lemma UnregisterKmsCluster_invariant m req :
  unique_cluster_ids (KmipServers m) →
  default_invariant (KmipServers m) →
  unique_cluster_ids (KmipServers (UnregisterKmsCluster m req).1)
  ∧ default_invariant (KmipServers (UnregisterKmsCluster m req).1).
Proof.
  intros Hids Hinv. unfold UnregisterKmsCluster.
  destruct (UnregisterKmsCluster_loop _ _ _ _) as [x|]; simpl; [|done].
  by apply delete_invariant.
Qed.

(** *** The server calls *)

Lemma set_Servers_keeps l c : keeps_defaults c (set_Servers l c).
Proof. by split_and!. Qed.

Lemma RegisterKmipServer_loop_keeps spec cs :
  Forall2 keeps_defaults cs (RegisterKmipServer_loop spec cs).1.1.
Proof.
  induction cs as [|c cs IH]; simpl; [constructor|].
  destruct (decide _).
  - destruct (server_index _ _ _); simpl;
      apply keeps_defaults_same_tail;
      [apply keeps_defaults_refl | apply set_Servers_keeps].
  - destruct (RegisterKmipServer_loop spec cs) as [[cs' v] a]. simpl in *.
    constructor; [apply keeps_defaults_refl | done].
Qed.

Lemma RemoveKmipServer_loop_keeps req cs :
  Forall2 keeps_defaults cs (RemoveKmipServer_loop req cs).1.1.
Proof.
  induction cs as [|c cs IH]; simpl; [constructor|].
  destruct (decide _).
  - destruct (server_index _ _ _); simpl;
      apply keeps_defaults_same_tail;
      [apply set_Servers_keeps | apply keeps_defaults_refl].
  - destruct (RemoveKmipServer_loop req cs) as [[cs' v] a]. simpl in *.
    constructor; [apply keeps_defaults_refl | done].
Qed.

Lemma UpdateKmipServer_loop_keeps spec cs :
  Forall2 keeps_defaults cs (UpdateKmipServer_loop spec cs).1.1.
Proof.
  induction cs as [|c cs IH]; simpl; [constructor|].
  destruct (decide _).
  - destruct (server_index _ _ _); simpl;
      apply keeps_defaults_same_tail;
      [apply set_Servers_keeps | apply keeps_defaults_refl].
  - destruct (UpdateKmipServer_loop spec cs) as [[cs' v] a]. simpl in *.
    constructor; [apply keeps_defaults_refl | done].
Qed.

Lemma keeps_defaults_both cs cs' :
  Forall2 keeps_defaults cs cs' →
  unique_cluster_ids cs → default_invariant cs →
  unique_cluster_ids cs' ∧ default_invariant cs'.
Proof.
  intros Hrel Hids Hinv. split.
  - unfold unique_cluster_ids. by rewrite (keeps_defaults_ids cs cs').
  - by eapply keeps_defaults_invariant.
Qed.

Lemma RegisterKmipServer_invariant m req :
  unique_cluster_ids (KmipServers m) →
  default_invariant (KmipServers m) →
  unique_cluster_ids (KmipServers (RegisterKmipServer m req).1)
  ∧ default_invariant (KmipServers (RegisterKmipServer m req).1).
Proof.
  pose proof (RegisterKmipServer_loop_keeps (Register_Server req)
                (KmipServers m)) as Hrel.
  unfold RegisterKmipServer.
  destruct (RegisterKmipServer_loop _ _) as [[cs v] a]. simpl in *.
  by apply keeps_defaults_both.
Qed.

Lemma RemoveKmipServer_invariant m req :
  unique_cluster_ids (KmipServers m) →
  default_invariant (KmipServers m) →
  unique_cluster_ids (KmipServers (RemoveKmipServer m req).1)
  ∧ default_invariant (KmipServers (RemoveKmipServer m req).1).
Proof.
  pose proof (RemoveKmipServer_loop_keeps req (KmipServers m)) as Hrel.
  unfold RemoveKmipServer.
  destruct (RemoveKmipServer_loop _ _) as [[cs v] a]. simpl in *.
  by apply keeps_defaults_both.
Qed.

Lemma UpdateKmipServer_invariant m req :
  unique_cluster_ids (KmipServers m) →
  default_invariant (KmipServers m) →
  unique_cluster_ids (KmipServers (UpdateKmipServer m req).1)
  ∧ default_invariant (KmipServers (UpdateKmipServer m req).1).
Proof.
  pose proof (UpdateKmipServer_loop_keeps (Update_Server req)
                (KmipServers m)) as Hrel.
  unfold UpdateKmipServer.
  destruct (UpdateKmipServer_loop _ _) as [[cs v] a]. simpl in *.
  by apply keeps_defaults_both.
Qed.

(** *** Every call *)

Lemma serve_invariant native m call :
  unique_cluster_ids (KmipServers m) →
  default_invariant (KmipServers m) →
  unique_cluster_ids (KmipServers (serve native m call))
  ∧ default_invariant (KmipServers (serve native m call)).
Proof.
  intros Hids Hinv.
  destruct call as [req|req|req|req|req|req|req|req newKey]; simpl.
  - by apply RegisterKmsCluster_invariant.
  - by apply UnregisterKmsCluster_invariant.
  - by apply RegisterKmipServer_invariant.
  - by apply UpdateKmipServer_invariant.
  - by apply RemoveKmipServer_invariant.
  - by apply SetDefaultKmsCluster_invariant.
  - by apply SetDefaultKmsCluster_invariant.
  - by rewrite GenerateKey_servers.
Qed.

Lemma serve_all_invariant native calls :
  ∀ m,
    unique_cluster_ids (KmipServers m) →
    default_invariant (KmipServers m) →
    unique_cluster_ids (KmipServers (serve_all native m calls))
    ∧ default_invariant (KmipServers (serve_all native m calls)).
Proof.
  induction calls as [|call calls IH]; intros m Hids Hinv; simpl; [done|].
  destruct (serve_invariant native m call Hids Hinv) as [Hids' Hinv'].
  by apply IH.
Qed.

Lemma empty_manager_invariant :
  unique_cluster_ids (KmipServers empty_manager)
  ∧ default_invariant (KmipServers empty_manager).
Proof.
  unfold default_invariant. split_and!.
  - apply NoDup_nil_2.
  - intros i j ci cj Hi. by destruct i.
  - intros i j ci cj e Hi. by destruct i.
Qed.

(** C3: after any sequence of RegisterKmsCluster, UnregisterKmsCluster,
    RegisterKmipServer, UpdateKmipServer, RemoveKmipServer,
    SetDefaultKmsCluster, MarkDefault and GenerateKey calls, at most one
    registered cluster has [UseAsDefault] set and every entity is an entity
    default of at most one cluster: from the empty registry, and from every
    registry that satisfies the invariant and identifies its clusters by
    distinct IDs, which the calls preserve as well. *)
Theorem default_invariant_after_any_calls :
  ∀ (nativeKeyProvider : string) (calls : list Call),
    default_invariant
      (KmipServers (serve_all nativeKeyProvider empty_manager calls))
    ∧ ∀ m,
        unique_cluster_ids (KmipServers m) →
        default_invariant (KmipServers m) →
        default_invariant (KmipServers (serve_all nativeKeyProvider m calls))
        ∧ unique_cluster_ids
            (KmipServers (serve_all nativeKeyProvider m calls)).
Proof.
  intros native calls. split.
  - destruct empty_manager_invariant as [Hids Hinv].
    by destruct (serve_all_invariant native calls empty_manager Hids Hinv).
  - intros m Hids Hinv.
    by destruct (serve_all_invariant native calls m Hids Hinv).
Qed.

Lemma default_invariant_after_any_calls_witness :
  let m := registry [cluster "pA" [] true [vm1]; cluster "pB" [] false [vm2]] in
  let calls :=
    [ CallMarkDefault {| MarkDefault_ClusterId := {| Id := "pB" |} |};
      CallRegisterKmsCluster {| Register_ClusterId := {| Id := "pC" |};
                                Register_ManagementType := "KmsServer" |};
      CallSetDefaultKmsCluster (SetDefault_request "pC" (Some vm2));
      CallGenerateKey {| KeyProvider := None |} "k1";
      CallUnregisterKmsCluster {| Unregister_ClusterId := {| Id := "pA" |} |} ] in
  default_invariant (KmipServers (serve_all "nativeProvider" m calls))
  ∧ unique_cluster_ids (KmipServers (serve_all "nativeProvider" m calls)).
Proof.
  intros m calls.
  apply (default_invariant_after_any_calls "nativeProvider" calls).
  - by apply (bool_decide_unpack _).
  - split.
    + intros i j ci cj Hi Hj Hdi Hdj.
      destruct i as [|[|i]], j as [|[|j]]; simpl in *; try done;
        injection Hi as <-; injection Hj as <-; done.
    + intros i j ci cj e Hi Hj Hei Hej.
      destruct i as [|[|i]], j as [|[|j]]; simpl in *; try done;
        injection Hi as <-; injection Hj as <-;
        apply list_elem_of_singleton in Hei, Hej; subst e; discriminate Hej.
Defined.

(** ** Server names stay distinct within a cluster *)

Lemma unique_server_names_Forall cs :
  unique_server_names cs ↔ Forall (λ c, NoDup (Name <$> Servers c)) cs.
Proof. unfold unique_server_names. by rewrite Forall_forall. Qed.

Lemma server_index_None name ss :
  ∀ j, server_index name ss j = None → name ∉ Name <$> ss.
Proof.
  induction ss as [|s ss IH]; intros j Hj; simpl in *.
  - by intros ?%elem_of_nil.
  - destruct (decide (name = Name s)); [done|].
    rewrite not_elem_of_cons. split; [done | by eapply IH].
Qed.

Lemma server_index_Some name ss :
  ∀ j x, server_index name ss j = Some x →
         j ≤ x ∧ (Name <$> ss) !! (x - j) = Some name.
Proof.
  induction ss as [|s ss IH]; intros j x Hx; simpl in Hx; [done|].
  destruct (decide (name = Name s)) as [->|Hne].
  - injection Hx as <-. split; [lia|]. by rewrite Nat.sub_diag.
  - destruct (IH _ _ Hx) as [Hle Hl]. split; [lia|].
    replace (x - j) with (S (x - S j)) by lia. done.
Qed.

Lemma SetDefault_visit_servers req c :
  Servers (SetDefault_visit req c).1 = Servers c.
Proof.
  unfold SetDefault_visit.
  repeat (match goal with
          | |- context [match ?x with _ => _ end] => destruct x
          end; simpl); done.
Qed.

Lemma RegisterKmipServer_loop_names spec cs :
  Forall (λ c, NoDup (Name <$> Servers c)) cs →
  Forall (λ c, NoDup (Name <$> Servers c)) (RegisterKmipServer_loop spec cs).1.1.
Proof.
  induction 1 as [|c cs Hc Hcs IH]; simpl; [constructor|].
  destruct (decide _).
  - destruct (server_index _ _ _) eqn:Hidx; simpl; constructor; try done.
    simpl. rewrite fmap_app. apply NoDup_app. split_and!; [done| |].
    + intros name Hname Hnew. rewrite list_fmap_singleton in Hnew.
      apply list_elem_of_singleton in Hnew as ->.
      by apply server_index_None in Hidx.
    + apply NoDup_singleton.
  - destruct (RegisterKmipServer_loop spec cs) as [[cs' v] a]. simpl in *.
    by constructor.
Qed.

Lemma RemoveKmipServer_loop_names req cs :
  Forall (λ c, NoDup (Name <$> Servers c)) cs →
  Forall (λ c, NoDup (Name <$> Servers c)) (RemoveKmipServer_loop req cs).1.1.
Proof.
  induction 1 as [|c cs Hc Hcs IH]; simpl; [constructor|].
  destruct (decide _).
  - destruct (server_index _ _ _) eqn:Hidx; simpl; constructor; try done.
    simpl. rewrite list_fmap_delete.
    eapply sublist_NoDup; [exact Hc | apply sublist_delete].
  - destruct (RemoveKmipServer_loop req cs) as [[cs' v] a]. simpl in *.
    by constructor.
Qed.

Lemma UpdateKmipServer_loop_names spec cs :
  Forall (λ c, NoDup (Name <$> Servers c)) cs →
  Forall (λ c, NoDup (Name <$> Servers c)) (UpdateKmipServer_loop spec cs).1.1.
Proof.
  induction 1 as [|c cs Hc Hcs IH]; simpl; [constructor|].
  destruct (decide _).
  - destruct (server_index _ _ _) as [j|] eqn:Hidx; simpl; constructor;
      try done.
    simpl. apply server_index_Some in Hidx as [_ Hj].
    rewrite Nat.sub_0_r in Hj.
    by rewrite list_fmap_insert, list_insert_id.
  - destruct (UpdateKmipServer_loop spec cs) as [[cs' v] a]. simpl in *.
    by constructor.
Qed.

Lemma serve_server_names native m call :
  unique_server_names (KmipServers m) →
  unique_server_names (KmipServers (serve native m call)).
Proof.
  rewrite !unique_server_names_Forall. intros Hnames.
  destruct call as [req|req|req|req|req|req|req|req newKey]; simpl.
  - unfold RegisterKmsCluster. destruct (RegisterKmsCluster_loop _ _ _); [done|].
    simpl. apply Forall_app. split; [done|].
    apply Forall_singleton. simpl. apply NoDup_nil_2.
  - unfold UnregisterKmsCluster.
    destruct (UnregisterKmsCluster_loop _ _ _ _) as [x|]; [|done]. simpl.
    by apply Forall_delete.
  - pose proof (RegisterKmipServer_loop_names (Register_Server req) _ Hnames).
    unfold RegisterKmipServer.
    by destruct (RegisterKmipServer_loop _ _) as [[cs v] a].
  - pose proof (UpdateKmipServer_loop_names (Update_Server req) _ Hnames).
    unfold UpdateKmipServer.
    by destruct (UpdateKmipServer_loop _ _) as [[cs v] a].
  - pose proof (RemoveKmipServer_loop_names req _ Hnames).
    unfold RemoveKmipServer.
    by destruct (RemoveKmipServer_loop _ _) as [[cs v] a].
  - rewrite SetDefaultKmsCluster_servers. apply Forall_fmap.
    eapply Forall_impl; [exact Hnames|]. intros c Hc. simpl.
    by rewrite SetDefault_visit_servers.
  - unfold MarkDefault. rewrite SetDefaultKmsCluster_servers. apply Forall_fmap.
    eapply Forall_impl; [exact Hnames|]. intros c Hc. simpl.
    by rewrite SetDefault_visit_servers.
  - by rewrite GenerateKey_servers.
Qed.

(** Every state the calls reach from the empty registry identifies its
    clusters by distinct IDs and the servers of a cluster by distinct names. *)
Lemma serve_all_identified native calls :
  ∀ m,
    unique_cluster_ids (KmipServers m) →
    default_invariant (KmipServers m) →
    unique_server_names (KmipServers m) →
    unique_cluster_ids (KmipServers (serve_all native m calls))
    ∧ unique_server_names (KmipServers (serve_all native m calls)).
Proof.
  induction calls as [|call calls IH]; intros m Hids Hinv Hnames; simpl;
    [done|].
  destruct (serve_invariant native m call Hids Hinv) as [Hids' Hinv'].
  apply IH; [done..|]. by apply serve_server_names.
Qed.

Lemma reachable_identified native calls :
  unique_cluster_ids (KmipServers (serve_all native empty_manager calls))
  ∧ unique_server_names (KmipServers (serve_all native empty_manager calls)).
Proof.
  destruct empty_manager_invariant as [Hids Hinv].
  apply serve_all_identified; [done..|].
  intros c Hc. by apply elem_of_nil in Hc.
Qed.

(** ** The status task *)

(** Joining a list with itself on a key that no two elements share keeps
    the diagonal only. *)
Section self_join.
Context {A B K : Type} `{EqDecision K} (key : A → K) (f : A → A → B).

Lemma join_no_match x (l : list A) :
  key x ∉ key <$> l →
  (l ≫= λ y, if decide (key x = key y) then [f x y] else []) = [].
Proof.
  induction l as [|y l IH]; intros Hnot; [done|].
  rewrite fmap_cons, not_elem_of_cons in Hnot. destruct Hnot as [Hne Hnot].
  rewrite bind_cons, decide_False by done. by apply IH.
Qed.

Lemma join_one_match x (l : list A) :
  NoDup (key <$> l) → x ∈ l →
  (l ≫= λ y, if decide (key x = key y) then [f x y] else []) = [f x x].
Proof.
  induction l as [|y l IH]; intros Hnd Hin.
  - by apply elem_of_nil in Hin.
  - rewrite fmap_cons in Hnd. apply NoDup_cons in Hnd as [Hy Hnd].
    rewrite bind_cons. apply elem_of_cons in Hin as [->|Hin].
    + rewrite decide_True by done. by rewrite join_no_match.
    + rewrite decide_False, IH; [done..|].
      intros Heq. apply Hy. rewrite <- Heq.
      apply list_elem_of_fmap. by exists x.
Qed.

Lemma bind_singletons (g : A → B) (h : A → list B) (l : list A) :
  (∀ x, x ∈ l → h x = [g x]) → l ≫= h = g <$> l.
Proof.
  induction l as [|x l IH]; intros Hh; [done|].
  rewrite bind_cons, fmap_cons, Hh by left. simpl. f_equal.
  apply IH. intros y Hy. apply Hh. by right.
Qed.

Lemma self_join (l : list A) :
  NoDup (key <$> l) →
  (l ≫= λ x, l ≫= λ y, if decide (key x = key y) then [f x y] else [])
  = (λ x, f x x) <$> l.
Proof.
  intros Hnd. apply bind_singletons. intros x Hx. by apply join_one_match.
Qed.
End self_join.

Lemma set_Servers_same c : set_Servers (Servers c) c = c.
Proof. by destruct c. Qed.

Lemma Run_fill_cases g cs :
  ∀ servers,
    Run_fill g cs servers = servers
    ∨ ∃ c, c ∈ cs ∧ Id (ClusterId g) = Id (ClusterId c)
           ∧ Run_fill g cs servers = Servers c.
Proof.
  induction cs as [|c cs IH]; intros servers; simpl; [by left|].
  destruct (IH (if decide (Id (ClusterId g) = Id (ClusterId c))
                then Servers c else servers)) as [->|(c' & Hin & Hid & ->)].
  - destruct (decide _) as [Heq|]; [right | by left].
    exists c. split; [left | done].
  - right. exists c'. split; [by right | done].
Qed.

Lemma unique_cluster_ids_eq cs c c' :
  unique_cluster_ids cs → c ∈ cs → c' ∈ cs →
  Id (ClusterId c) = Id (ClusterId c') → c = c'.
Proof.
  unfold unique_cluster_ids, cluster_ids.
  intros Hnd (i & Hi)%list_elem_of_lookup (j & Hj)%list_elem_of_lookup Heq.
  assert (i = j); [|congruence].
  eapply NoDup_lookup; [exact Hnd | |]; rewrite list_lookup_fmap.
  - by rewrite Hi.
  - rewrite Hj. simpl. by rewrite Heq.
Qed.

(** A selector copied from the registry is left as it is by the expansion. *)
Lemma Run_expand_registered cs g :
  unique_cluster_ids cs → g ∈ cs → Run_expand cs g = g.
Proof.
  intros Hnd Hg. unfold Run_expand. destruct (decide _) as [Hlen|]; [|done].
  destruct (Run_fill_cases g cs (Servers g)) as [->|(c & Hc & Hid & ->)].
  - apply set_Servers_same.
  - rewrite <- (unique_cluster_ids_eq cs g c) by done. apply set_Servers_same.
Qed.

Lemma Run_servers_self c :
  NoDup (Name <$> Servers c) → Run_servers c c = green_server <$> Servers c.
Proof.
  intros Hnd. unfold Run_servers.
  apply (self_join Name (λ s _, green_server s) (Servers c) Hnd).
Qed.

(** C6: without selectors the status task returns exactly one record per
    registered cluster, in registry order: the cluster's ID and management
    type, the status green, and one green server status per server of the
    cluster, in order (none for a cluster without servers).  This holds in
    every state the calls reach from the empty registry, and in every
    registry whose cluster IDs are distinct and whose server names are
    distinct within each cluster. *)
Theorem Run_without_selectors :
  ∀ (nativeKeyProvider : string) (calls : list Call),
    (let m := serve_all nativeKeyProvider empty_manager calls in
     Run m [] = healthy_status <$> KmipServers m)
    ∧ ∀ (m : CryptoManagerKmip),
        unique_cluster_ids (KmipServers m) →
        unique_server_names (KmipServers m) →
        Run m [] = healthy_status <$> KmipServers m.
Proof.
  intros native calls.
  assert (Hrun : ∀ m, unique_cluster_ids (KmipServers m) →
                      unique_server_names (KmipServers m) →
                      Run m [] = healthy_status <$> KmipServers m).
  { intros m Hids Hnames. unfold Run. simpl.
    rewrite (list_fmap_ext _ id (KmipServers m)).
    2:{ intros i g Hg. apply Run_expand_registered; [done|].
        by eapply list_elem_of_lookup_2. }
    rewrite list_fmap_id. unfold Run_result.
    rewrite (self_join (λ c, Id (ClusterId c)) Run_status) by done.
    apply list_fmap_ext. intros i c Hc. unfold Run_status, healthy_status.
    f_equal. apply Run_servers_self, Hnames. by eapply list_elem_of_lookup_2. }
  split; [|done].
  destruct (reachable_identified native calls) as [Hids Hnames].
  by apply Hrun.
Qed.

(** The registry {pA: [s1, s2], pB: []}. *)
Lemma Run_without_selectors_witness :
  Run (registry [cluster "pA" [server "s1"; server "s2"] false [];
                 cluster "pB" [] false []]) []
  = [ {| Status_ClusterId := {| Id := "pA" |};
         Status_ManagementType := "KmsServer";
         OverallStatus := ManagedEntityStatusGreen;
         Status_Servers :=
           [ {| Status_Name := "s1"; Status := ManagedEntityStatusGreen |};
             {| Status_Name := "s2"; Status := ManagedEntityStatusGreen |} ] |};
      {| Status_ClusterId := {| Id := "pB" |};
         Status_ManagementType := "KmsServer";
         OverallStatus := ManagedEntityStatusGreen;
         Status_Servers := [] |} ].
Proof.
  apply (Run_without_selectors "nativeProvider" []).
  - by apply (bool_decide_unpack _).
  - intros c Hc. simpl in Hc.
    apply elem_of_cons in Hc as [->|Hc];
      [|apply list_elem_of_singleton in Hc as ->];
      by apply (bool_decide_unpack _).
Defined.

(** *** Repeated selectors *)

Lemma Run_expand_id cs g : Id (ClusterId (Run_expand cs g)) = Id (ClusterId g).
Proof. unfold Run_expand. by destruct (decide _). Qed.

Lemma occurrences_expand id cs get :
  occurrences id (Run_expand cs <$> get) = occurrences id get.
Proof.
  unfold occurrences. induction get as [|g get IH]; [done|].
  rewrite fmap_cons. destruct (decide (Id (ClusterId g) = id)) as [Heq|Hne].
  - rewrite !filter_cons_True by (by rewrite ?Run_expand_id). simpl.
    by rewrite IH.
  - by rewrite !filter_cons_False by (by rewrite ?Run_expand_id).
Qed.

(** The records one registered cluster contributes: one per selector that
    carries its ID. *)
Lemma status_records_of_cluster id c get :
  status_records_of id
    (get ≫= λ g, if decide (Id (ClusterId c) = Id (ClusterId g))
                 then [Run_status c g] else [])
  = if decide (Id (ClusterId c) = id) then occurrences (Id (ClusterId c)) get
    else 0.
Proof.
  unfold status_records_of, occurrences.
  induction get as [|g get IH]; [by destruct (decide _)|].
  rewrite bind_cons, filter_app, length_app, IH.
  destruct (decide (Id (ClusterId c) = Id (ClusterId g))) as [Hg|Hg].
  - rewrite (filter_cons_True _ g) by done.
    destruct (decide (Id (ClusterId c) = id)) as [Hc|Hc].
    + by rewrite filter_cons_True by done.
    + by rewrite filter_cons_False by done.
  - rewrite (filter_cons_False _ g) by done. simpl.
    by destruct (decide (Id (ClusterId c) = id)).
Qed.

Lemma status_records_of_result id cs get :
  status_records_of id (Run_result cs get)
  = occurrences id cs * occurrences id get.
Proof.
  unfold Run_result. induction cs as [|c cs IH]; [done|].
  unfold status_records_of in *. rewrite bind_cons, filter_app, length_app, IH.
  fold (status_records_of id
          (get ≫= λ g, if decide (Id (ClusterId c) = Id (ClusterId g))
                       then [Run_status c g] else [])).
  rewrite status_records_of_cluster. unfold occurrences.
  destruct (decide (Id (ClusterId c) = id)) as [Hc|Hc].
  - rewrite (filter_cons_True _ c) by done. subst id. simpl. lia.
  - rewrite (filter_cons_False _ c) by done. done.
Qed.

Lemma occurrences_absent id cs :
  id ∉ cluster_ids cs → occurrences id cs = 0.
Proof.
  unfold cluster_ids, occurrences.
  induction cs as [|c cs IH]; intros Hnot; [done|].
  rewrite fmap_cons, not_elem_of_cons in Hnot. destruct Hnot as [Hne Hnot].
  rewrite filter_cons_False by congruence. by apply IH.
Qed.

Lemma occurrences_unique id cs :
  unique_cluster_ids cs → id ∈ cluster_ids cs → occurrences id cs = 1.
Proof.
  unfold unique_cluster_ids, cluster_ids, occurrences.
  induction cs as [|c cs IH]; intros Hnd Hin.
  - by apply elem_of_nil in Hin.
  - rewrite fmap_cons in Hnd, Hin. apply NoDup_cons in Hnd as [Hc Hnd].
    destruct (decide (Id (ClusterId c) = id)) as [<-|Hne].
    + rewrite filter_cons_True by done. simpl. f_equal.
      by apply occurrences_absent.
    + rewrite filter_cons_False by done. apply IH; [done|].
      apply elem_of_cons in Hin as [?|?]; [congruence | done].
Qed.

(** C10: selectors are not deduplicated.  When [k >= 1] selectors carry a
    cluster ID, the result holds, for that ID, [k] status records per
    registered cluster of that ID: one record for every pair of a registered
    cluster and a matching selector.  So a registered ID that the selectors
    repeat [k] times gets [k] records, in every registry with distinct
    cluster IDs and in every state the calls reach from the empty registry. *)
Theorem Run_repeated_selector :
  ∀ (m : CryptoManagerKmip) (get : list KmipClusterInfo) (id : string)
    (k : nat),
    occurrences id get = k →
    1 ≤ k →
    status_records_of id (Run m get) = occurrences id (KmipServers m) * k
    ∧ (unique_cluster_ids (KmipServers m) →
       id ∈ cluster_ids (KmipServers m) →
       status_records_of id (Run m get) = k)
    ∧ (∀ nativeKeyProvider calls,
         m = serve_all nativeKeyProvider empty_manager calls →
         id ∈ cluster_ids (KmipServers m) →
         status_records_of id (Run m get) = k).
Proof.
  intros m get id k Hk Hpos.
  assert (Hrun : status_records_of id (Run m get)
                 = occurrences id (KmipServers m) * k).
  { unfold Run. rewrite decide_False.
    - by rewrite status_records_of_result, occurrences_expand, Hk.
    - intros Hlen. apply length_zero_iff_nil in Hlen. subst get.
      unfold occurrences in Hk. simpl in Hk. lia. }
  assert (Hone : unique_cluster_ids (KmipServers m) →
                 id ∈ cluster_ids (KmipServers m) →
                 status_records_of id (Run m get) = k).
  { intros Hnd Hin. rewrite Hrun, occurrences_unique by done. lia. }
  split_and!; [done..|].
  intros native calls -> Hin. apply Hone; [|done].
  by destruct (reachable_identified native calls).
Qed.

Lemma Run_repeated_selector_witness :
  let m := registry [cluster "pA" [server "s1"; server "s2"] false [];
                     cluster "pB" [] false []] in
  let sel := cluster "pA" [] false [] in
  status_records_of "pA" (Run m [sel; sel; sel]) = 3.
Proof.
  intros m sel.
  destruct (Run_repeated_selector m [sel; sel; sel] "pA" 3) as (_ & Hk & _).
  - reflexivity.
  - lia.
  - apply Hk; by apply (bool_decide_unpack _).
Defined.

(** ** The scenario of the registry description

    Register pA, give it the server s1, mark it default: the default
    cluster is pA, and a key generated without naming a provider is valid. *)
Example scenario_mark_default_then_generate :
  let calls :=
    [ CallRegisterKmsCluster {| Register_ClusterId := {| Id := "pA" |};
                                Register_ManagementType := "KmsServer" |};
      CallRegisterKmipServer
        {| Register_Server := {| Spec_ClusterId := {| Id := "pA" |};
                                 Info := server "s1" |} |};
      CallMarkDefault {| MarkDefault_ClusterId := {| Id := "pA" |} |} ] in
  let m := serve_all "nativeProvider" empty_manager calls in
  let g := GenerateKey "nativeProvider" m {| KeyProvider := None |} "k" in
  KmipServers m = [cluster "pA" [server "s1"] true []]
  ∧ GetDefaultKmsClusterID m None false = Res "pA"
  ∧ g.2 = Res {| Success := true;
                 Result_KeyId := {| KeyId := "k";
                                    ProviderId := Some {| Id := "pA" |} |} |}
  ∧ IsValidKey g.1 "k" (map_to_list (keyIDToProviderID g.1)) = true.
Proof. by vm_compute. Qed.

(** A cluster registered under the empty ID is never taken as the provider:
    the loop only stops at a non-empty ID, so naming it gives the fault "No
    default provider", whatever its management type. *)
Example GenerateKey_empty_id_is_unresolved :
  let m := registry [ {| ClusterId := {| Id := "" |}; Servers := [];
                         UseAsDefault := false;
                         ManagementType := "nativeProvider";
                         UseAsEntityDefault := [] |} ] in
  GenerateKey "nativeProvider" m {| KeyProvider := Some {| Id := "" |} |} "k"
  = (m, Fault_ NoDefaultProvider).
Proof. reflexivity. Qed.

(** Clearing the entity default of an entity that no cluster lists succeeds
    and leaves the registry as it is. *)
Example SetDefault_unlisted_entity_is_noop :
  let m := registry [cluster "pA" [] true [vm2]; cluster "pB" [] false []] in
  SetDefaultKmsClusterId m "" (Some vm1) = (m, Res ()).
Proof. reflexivity. Qed.

(** Removing a server that the cluster does not have gives the fault
    "Invalid server name" and leaves the server list as it is. *)
Example RemoveKmipServer_missing_server :
  let m := registry [cluster "pA" [server "s1"] false []] in
  RemoveKmipServer m {| Remove_ClusterId := {| Id := "pA" |};
                        ServerName := "missing" |}
  = (m, Fault_ InvalidServerName).
Proof. reflexivity. Qed.

(** Registering a cluster ID twice gives the fault "Already registered" the
    second time and leaves the registry as it is. *)
Example RegisterKmsCluster_twice :
  let req := {| Register_ClusterId := {| Id := "pA" |};
                Register_ManagementType := "KmsServer" |} in
  let m := (RegisterKmsCluster empty_manager req).1 in
  RegisterKmsCluster m req = (m, Fault_ AlreadyRegistered).
Proof. reflexivity. Qed.

(** * Further properties of the manager *)

(** ** Calls that fail *)

Lemma with_KmipServers_same m : with_KmipServers (KmipServers m) m = m.
Proof. by destruct m. Qed.

Lemma RegisterKmipServer_loop_fault spec cs :
  (RegisterKmipServer_loop spec cs).1.2 = false
  ∨ (RegisterKmipServer_loop spec cs).2 = true →
  (RegisterKmipServer_loop spec cs).1.1 = cs.
Proof.
  induction cs as [|c cs IH]; simpl; [done|].
  destruct (decide _).
  - destruct (server_index _ _ _); simpl; [done|]. by intros [?|?].
  - destruct (RegisterKmipServer_loop spec cs) as [[cs' v] a]. simpl in *.
    intros H. by rewrite IH.
Qed.

Lemma RemoveKmipServer_loop_fault req cs :
  (RemoveKmipServer_loop req cs).1.2 = false
  ∨ (RemoveKmipServer_loop req cs).2 = false →
  (RemoveKmipServer_loop req cs).1.1 = cs.
Proof.
  induction cs as [|c cs IH]; simpl; [done|].
  destruct (decide _).
  - destruct (server_index _ _ _); simpl; [|done]. by intros [?|?].
  - destruct (RemoveKmipServer_loop req cs) as [[cs' v] a]. simpl in *.
    intros H. by rewrite IH.
Qed.

Lemma UpdateKmipServer_loop_fault spec cs :
  (UpdateKmipServer_loop spec cs).1.2 = false
  ∨ (UpdateKmipServer_loop spec cs).2 = false →
  (UpdateKmipServer_loop spec cs).1.1 = cs.
Proof.
  induction cs as [|c cs IH]; simpl; [done|].
  destruct (decide _).
  - destruct (server_index _ _ _); simpl; [|done]. by intros [?|?].
  - destruct (UpdateKmipServer_loop spec cs) as [[cs' v] a]. simpl in *.
    intros H. by rewrite IH.
Qed.

(** X1: RegisterKmsCluster, UnregisterKmsCluster, RegisterKmipServer,
    UpdateKmipServer, RemoveKmipServer and GenerateKey validate before they
    write: when the body of such a call is a fault, the state after the call
    is the state before it. *)
Theorem faulting_call_leaves_state :
  ∀ (nativeKeyProvider : string) (m : CryptoManagerKmip) (call : Call),
    validating_call call = true →
    faults nativeKeyProvider m call = true →
    serve nativeKeyProvider m call = m.
Proof.
  intros native m call Hval Hfault.
  destruct call as [req|req|req|req|req|req|req|req newKey];
    try discriminate Hval; simpl in *.
  - unfold RegisterKmsCluster in *.
    by destruct (RegisterKmsCluster_loop _ _ _).
  - unfold UnregisterKmsCluster in *.
    by destruct (UnregisterKmsCluster_loop _ _ _ _).
  - unfold RegisterKmipServer in *.
    pose proof (RegisterKmipServer_loop_fault (Register_Server req)
                  (KmipServers m)) as Hsame.
    destruct (RegisterKmipServer_loop _ _) as [[cs v] a]. simpl in *.
    rewrite Hsame; [apply with_KmipServers_same|].
    destruct v; [|by left]. destruct a; [by right | done].
  - unfold UpdateKmipServer in *.
    pose proof (UpdateKmipServer_loop_fault (Update_Server req)
                  (KmipServers m)) as Hsame.
    destruct (UpdateKmipServer_loop _ _) as [[cs v] a]. simpl in *.
    rewrite Hsame; [apply with_KmipServers_same|].
    destruct v; [|by left]. destruct a; [done | by right].
  - unfold RemoveKmipServer in *.
    pose proof (RemoveKmipServer_loop_fault req (KmipServers m)) as Hsame.
    destruct (RemoveKmipServer_loop _ _) as [[cs v] a]. simpl in *.
    rewrite Hsame; [apply with_KmipServers_same|].
    destruct v; [|by left]. destruct a; [done | by right].
  - unfold GenerateKey in *. by repeat destruct (decide _).
Qed.

Lemma faulting_call_leaves_state_witness :
  let m := registry [cluster "pA" [server "s1"] true []] in
  serve "nativeProvider" m
    (CallRegisterKmipServer
       {| Register_Server := {| Spec_ClusterId := {| Id := "pA" |};
                                Info := server "s1" |} |}) = m
  ∧ serve "nativeProvider" m
      (CallGenerateKey {| KeyProvider := Some {| Id := "pB" |} |} "k") = m.
Proof.
  intros m. split.
  - by apply (faulting_call_leaves_state "nativeProvider" m).
  - by apply (faulting_call_leaves_state "nativeProvider" m).
Defined.

(** ** Registering and unregistering clusters *)

Lemma ListKmipServers_no_limit m :
  ListKmipServers m {| ListKmipServers_Limit := None |} = KmipServers m.
Proof.
  unfold ListKmipServers. cbn [ListKmipServers_Limit]. unfold effective_limit.
  destruct (decide _) as [Hpos|Hzero].
  - by rewrite Nat2Z.id, firstn_all.
  - destruct (KmipServers m); [done | simpl in Hzero; lia].
Qed.













(** ** The server calls and IsValidServer *)

Lemma IsValidServer_servers_named serverName ss :
  IsValidServer_servers serverName ss = bool_decide (serverName ∈ Name <$> ss).
Proof.
  induction ss as [|s ss IH]; cbn [IsValidServer_servers].
  - symmetry. apply bool_decide_eq_false_2. by intros ?%elem_of_nil.
  - rewrite fmap_cons. destruct (decide (Name s = serverName)) as [<-|Hne].
    + symmetry. apply bool_decide_eq_true_2. left.
    + rewrite IH. apply bool_decide_ext. rewrite elem_of_cons.
      split; [by right | intros [?|?]; [congruence | done]].
Qed.

Lemma IsValidServer_loop_exists providerID serverName cs :
  IsValidServer_loop providerID serverName cs
  = bool_decide (Exists (has_server providerID serverName) cs).
Proof.
  induction cs as [|c cs IH]; cbn [IsValidServer_loop].
  - symmetry. apply bool_decide_eq_false_2. by intros ?%Exists_nil.
  - rewrite IsValidServer_servers_named, IH.
    destruct (decide (Id (ClusterId c) = providerID)) as [Hid|Hid].
    + destruct (bool_decide (serverName ∈ _)) eqn:Hs.
      * apply bool_decide_eq_true in Hs. symmetry.
        apply bool_decide_eq_true_2. by left.
      * apply bool_decide_eq_false in Hs. apply bool_decide_ext.
        rewrite Exists_cons. split; [by right | by intros [[_ ?]|?]].
    + apply bool_decide_ext. rewrite Exists_cons.
      split; [by right | by intros [[? _]|?]].
Qed.

Lemma IsValidServer_exists m providerID serverName :
  IsValidServer m providerID serverName
  = bool_decide (Exists (has_server providerID serverName) (KmipServers m)).
Proof.
  unfold IsValidServer. rewrite ListKmipServers_no_limit.
  apply IsValidServer_loop_exists.
Qed.

Lemma server_index_named name ss j :
  server_index name ss j = None ↔ name ∉ Name <$> ss.
Proof.
  split; [apply server_index_None|].
  revert j. induction ss as [|s ss IH]; intros j Hnot; simpl; [done|].
  rewrite fmap_cons, not_elem_of_cons in Hnot. destruct Hnot as [Hne Hnot].
  rewrite decide_False by done. by apply IH.
Qed.


Lemma RegisterKmipServer_loop_first spec pre c post :
  Id (Spec_ClusterId spec) ∉ cluster_ids pre →
  Id (ClusterId c) = Id (Spec_ClusterId spec) →
  RegisterKmipServer_loop spec (pre ++ c :: post)
  = match server_index (Name (Info spec)) (Servers c) 0 with
    | Some _ => (pre ++ c :: post, true, true)
    | None => (pre ++ set_Servers (Servers c ++ [Info spec]) c :: post,
               true, false)
    end.
Proof.
  unfold cluster_ids. intros Hnot Hid.
  induction pre as [|c0 pre IH]; simpl.
  - rewrite decide_True by done. by destruct (server_index _ _ _).
  - rewrite fmap_cons, not_elem_of_cons in Hnot. destruct Hnot as [Hne Hnot].
    rewrite decide_False by done. rewrite IH by done.
    by destruct (server_index _ _ _).
Qed.


Lemma RemoveKmipServer_loop_first req pre c post :
  Id (Remove_ClusterId req) ∉ cluster_ids pre →
  Id (ClusterId c) = Id (Remove_ClusterId req) →
  RemoveKmipServer_loop req (pre ++ c :: post)
  = match server_index (ServerName req) (Servers c) 0 with
    | Some x => (pre ++ set_Servers (delete x (Servers c)) c :: post, true, true)
    | None => (pre ++ c :: post, true, false)
    end.
Proof.
  unfold cluster_ids. intros Hnot Hid.
  induction pre as [|c0 pre IH]; simpl.
  - rewrite decide_True by done. by destruct (server_index _ _ _).
  - rewrite fmap_cons, not_elem_of_cons in Hnot. destruct Hnot as [Hne Hnot].
    rewrite decide_False by done. rewrite IH by done.
    by destruct (server_index _ _ _).
Qed.

Lemma UpdateKmipServer_loop_unregistered spec cs :
  Id (Spec_ClusterId spec) ∉ cluster_ids cs →
  UpdateKmipServer_loop spec cs = (cs, false, false).
Proof.
  unfold cluster_ids. induction cs as [|c cs IH]; intros Hnot; simpl; [done|].
  rewrite fmap_cons, not_elem_of_cons in Hnot. destruct Hnot as [Hne Hnot].
  rewrite decide_False by done. by rewrite IH.
Qed.

Lemma UpdateKmipServer_loop_first spec pre c post :
  Id (Spec_ClusterId spec) ∉ cluster_ids pre →
  Id (ClusterId c) = Id (Spec_ClusterId spec) →
  UpdateKmipServer_loop spec (pre ++ c :: post)
  = match server_index (Name (Info spec)) (Servers c) 0 with
    | Some j => (pre ++ set_Servers (<[j := Info spec]> (Servers c)) c :: post,
                 true, true)
    | None => (pre ++ c :: post, true, false)
    end.
Proof.
  unfold cluster_ids. intros Hnot Hid.
  induction pre as [|c0 pre IH]; simpl.
  - rewrite decide_True by done. by destruct (server_index _ _ _).
  - rewrite fmap_cons, not_elem_of_cons in Hnot. destruct Hnot as [Hne Hnot].
    rewrite decide_False by done. rewrite IH by done.
    by destruct (server_index _ _ _).
Qed.



(** The search of a server list ends at the first server of the name. *)
Lemma server_index_position name ss :
  ∀ j x,
    server_index name ss j = Some x →
    ∃ k s, x = j + k ∧ ss !! k = Some s ∧ Name s = name
           ∧ name ∉ Name <$> take k ss.
Proof.
  induction ss as [|s ss IH]; intros j x Hx; simpl in Hx; [done|].
  destruct (decide (name = Name s)) as [->|Hne].
  - injection Hx as <-. exists 0, s. split_and!; [lia | done | done |].
    by intros ?%elem_of_nil.
  - destruct (IH _ _ Hx) as (k & s' & -> & Hk & Hs & Hfirst).
    exists (S k), s'. split_and!; [lia | done | done |].
    simpl. rewrite not_elem_of_cons. done.
Qed.

Lemma server_index_first name ss :
  name ∈ Name <$> ss →
  ∃ x s, server_index name ss 0 = Some x ∧ ss !! x = Some s ∧ Name s = name
         ∧ name ∉ Name <$> take x ss.
Proof.
  intros Hin.
  destruct (server_index name ss 0) as [x|] eqn:Hidx;
    [|by apply server_index_named in Hidx].
  destruct (server_index_position _ _ _ _ Hidx) as (k & s & -> & Hk & Hs & Hf).
  by exists k, s.
Qed.




(** X7: UpdateKmipServer faults with "Invalid cluster ID" when no cluster
    carries the ID, and with "Invalid server name" when the first cluster of
    that ID has no server of the new info's name; both leave the state as it
    is.  Otherwise it succeeds and puts the new info in the place of the
    first server of that name, in that cluster only: the cluster's server
    names and their order are as before, and so is IsValidServer for every
    ID and name. *)
Theorem UpdateKmipServer_outcomes :
  ∀ (m : CryptoManagerKmip) (req : UpdateKmipServerRequest),
    let id := Id (Spec_ClusterId (Update_Server req)) in
    let info := Info (Update_Server req) in
    (id ∉ cluster_ids (KmipServers m) →
     UpdateKmipServer m req = (m, Fault_ InvalidClusterID))
    ∧ ∀ pre c post,
        KmipServers m = pre ++ c :: post →
        id ∉ cluster_ids pre →
        Id (ClusterId c) = id →
        (Name info ∉ Name <$> Servers c →
         UpdateKmipServer m req = (m, Fault_ InvalidServerName))
        ∧ (Name info ∈ Name <$> Servers c →
           ∃ x s,
             Servers c !! x = Some s ∧ Name s = Name info
             ∧ (Name info ∉ Name <$> take x (Servers c))
             ∧ UpdateKmipServer m req
               = (with_KmipServers
                    (pre ++ set_Servers (<[x := info]> (Servers c)) c :: post)
                    m,
                  Res ())
             ∧ <[x := info]> (Servers c) !! x = Some info
             ∧ Name <$> <[x := info]> (Servers c) = Name <$> Servers c
             ∧ ∀ providerID serverName,
                 IsValidServer (UpdateKmipServer m req).1 providerID serverName
                 = IsValidServer m providerID serverName).
Proof.
  intros m req id info. split.
  - intros Hnot. unfold UpdateKmipServer.
    rewrite UpdateKmipServer_loop_unregistered by done. simpl.
    by rewrite with_KmipServers_same.
  - intros pre c post Hcs Hpre Hid.
    assert (Hloop := UpdateKmipServer_loop_first (Update_Server req)
                       pre c post Hpre Hid).
    unfold UpdateKmipServer. rewrite Hcs, Hloop. fold info. split.
    + intros Hnot. apply (server_index_named _ _ 0) in Hnot. rewrite Hnot.
      simpl. by rewrite <- Hcs, with_KmipServers_same.
    + intros Hin.
      destruct (server_index_first _ _ Hin) as (x & s & -> & Hx & Hs & Hfirst).
      assert (Hnames : Name <$> <[x := info]> (Servers c) = Name <$> Servers c).
      { rewrite list_fmap_insert. apply list_insert_id.
        by rewrite list_lookup_fmap, Hx, <- Hs. }
      exists x, s. simpl. split_and!; try done.
      * apply list_lookup_insert_eq. by eapply lookup_lt_Some.
      * intros providerID serverName. rewrite !IsValidServer_exists, Hcs.
        simpl. apply bool_decide_ext. rewrite !Exists_app, !Exists_cons.
        unfold has_server at 2 4. simpl. by rewrite Hnames.
Qed.

Lemma UpdateKmipServer_outcomes_witness :
  let c := cluster "pA" [server "s1"; server "s2"] true [] in
  let m := registry [c] in
  let info := {| Name := "s2"; Address := "10.0.0.2"; Port := 5697 |} in
  let req := {| Update_Server := {| Spec_ClusterId := {| Id := "pA" |};
                                    Info := info |} |} in
  ∃ x s,
    Servers c !! x = Some s ∧ Name s = "s2"
    ∧ UpdateKmipServer m req
      = (with_KmipServers ([] ++ set_Servers (<[x := info]> (Servers c)) c :: [])
           m, Res ())
    ∧ <[x := info]> (Servers c) !! x = Some info.
Proof.
  intros c m info req.
  destruct (UpdateKmipServer_outcomes m req) as [_ Hfirst].
  destruct (Hfirst [] c [] eq_refl) as [_ Hupd].
  - by apply (bool_decide_unpack _).
  - done.
  - destruct Hupd as (x & s & Hx & Hs & _ & Hr & Hnew & _).
    + by apply (bool_decide_unpack _).
    + by exists x, s.
Defined.

(** ** GetDefaultKmsCluster *)

Lemma GetDefault_entities_elem_of e c l providerID :
  GetDefault_entities e c l providerID
  = if decide (e ∈ l) then Id (ClusterId c) else providerID.
Proof.
  revert providerID. induction l as [|x l IH]; intros p;
    cbn [GetDefault_entities].
  - by rewrite decide_False by (by intros ?%elem_of_nil).
  - rewrite IH. destruct (decide (e = x)) as [->|Hne].
    + rewrite (decide_True (P := x ∈ x :: l)) by left. by destruct (decide _).
    + destruct (decide (e ∈ l)) as [Hin|Hnin].
      * by rewrite decide_True by (by right).
      * rewrite decide_False; [done|]. by intros [?|?]%elem_of_cons.
Qed.

(** The loop returns the ID of the first cluster it can stop at, and the
    empty string when there is none. *)
Lemma GetDefault_loop_first entity cs :
  GetDefault_loop entity cs ""
  = match head (filter (default_candidate entity) cs) with
    | Some c => Id (ClusterId c)
    | None => ""
    end.
Proof.
  induction cs as [|c cs IH]; [done|]. cbn [GetDefault_loop].
  assert (Hstep :
    match entity with
    | Some e => GetDefault_entities e c (UseAsEntityDefault c) ""
    | None => if UseAsDefault c then Id (ClusterId c) else ""
    end = if decide (default_for entity c) then Id (ClusterId c) else "").
  { destruct entity as [e|]; simpl.
    - apply GetDefault_entities_elem_of.
    - destruct (UseAsDefault c); [by rewrite decide_True | by rewrite decide_False]. }
  rewrite Hstep. clear Hstep.
  destruct (decide (default_for entity c)) as [Hd|Hd].
  - destruct (decide (Id (ClusterId c) ≠ "")) as [Hne|He].
    + by rewrite filter_cons_True.
    + rewrite filter_cons_False by (by intros [_ ?]).
      apply dec_stable in He. by rewrite He at 1.
  - rewrite decide_False by (intros H; by apply H).
    by rewrite filter_cons_False by (by intros [? _]).
Qed.

Lemma GetDefaultKmsCluster_first m entity p :
  GetDefaultKmsCluster m (GetDefault_request entity p)
  = match head (filter (default_candidate entity) (KmipServers m)) with
    | Some c => Res (Some {| Id := Id (ClusterId c) |})
    | None => Fault_ NoDefaultProvider
    end.
Proof.
  unfold GetDefaultKmsCluster. simpl. rewrite GetDefault_loop_first.
  destruct (head _) as [c|] eqn:Hhead; [|done].
  apply head_Some_elem_of, list_elem_of_filter in Hhead as [[_ Hne] _].
  by rewrite decide_False.
Qed.

(** When every cluster the loop can stop at has the same ID, and there is
    one, that ID is returned. *)
Lemma GetDefaultKmsCluster_only m entity p id :
  (∀ c, c ∈ KmipServers m → default_for entity c → Id (ClusterId c) = id) →
  (∃ c, c ∈ KmipServers m ∧ default_for entity c) →
  id ≠ "" →
  GetDefaultKmsCluster m (GetDefault_request entity p)
  = Res (Some {| Id := id |}).
Proof.
  intros Hall (c & Hc & Hd) Hne. rewrite GetDefaultKmsCluster_first.
  destruct (head _) as [c'|] eqn:Hhead.
  - apply head_Some_elem_of, list_elem_of_filter in Hhead as [[Hd' _] Hc'].
    by rewrite (Hall c').
  - apply head_None in Hhead.
    assert (Hin : c ∈ filter (default_candidate entity) (KmipServers m)).
    { apply list_elem_of_filter. split; [|done]. split; [done|].
      by rewrite (Hall c). }
    rewrite Hhead in Hin. by apply elem_of_nil in Hin.
Qed.

Lemma GetDefaultKmsCluster_none m entity p :
  (∀ c, c ∈ KmipServers m → ¬ default_for entity c) →
  GetDefaultKmsCluster m (GetDefault_request entity p)
  = Fault_ NoDefaultProvider.
Proof.
  intros Hnone. rewrite GetDefaultKmsCluster_first.
  destruct (head _) as [c'|] eqn:Hhead; [|done].
  apply head_Some_elem_of, list_elem_of_filter in Hhead as [[Hd' _] Hc'].
  by destruct (Hnone c').
Qed.

Lemma filter_none {A} (P : A → Prop) `{∀ x, Decision (P x)} (l : list A) :
  Forall (λ x, ¬ P x) l → filter P l = [].
Proof.
  induction 1 as [|x l Hx Hl IH]; [done|].
  by rewrite filter_cons_False by done.
Qed.

(** X8: GetDefaultKmsCluster returns the ID of the first cluster, in
    registry order, that lists the entity (or, without an entity, has
    [UseAsDefault] set) and has a non-empty ID, and faults with "No default
    provider" exactly when there is no such cluster.  In a registry that
    satisfies the invariant of the defaults, the ID of any such cluster is
    the one returned. *)
Theorem GetDefaultKmsCluster_result :
  ∀ (m : CryptoManagerKmip) (entity : option ManagedObjectReference)
    (p : option bool),
    let r := GetDefaultKmsCluster m (GetDefault_request entity p) in
    (∀ id, r = Res (Some {| Id := id |}) ↔
       ∃ pre c post,
         KmipServers m = pre ++ c :: post ∧ Id (ClusterId c) = id
         ∧ default_candidate entity c
         ∧ Forall (λ c', ¬ default_candidate entity c') pre)
    ∧ (r = Fault_ NoDefaultProvider ↔
       ∀ c, c ∈ KmipServers m → ¬ default_candidate entity c)
    ∧ (default_invariant (KmipServers m) →
       ∀ c, c ∈ KmipServers m → default_candidate entity c →
            r = Res (Some {| Id := Id (ClusterId c) |})).
Proof.
  intros m entity p r. subst r. rewrite GetDefaultKmsCluster_first.
  destruct (head (filter (default_candidate entity) (KmipServers m)))
    as [c0|] eqn:Hhead.
  - destruct (head_filter_Some _ _ _ Hhead) as (pre & post & Hcs & Hpre).
    assert (Hc0 : default_candidate entity c0).
    { by apply head_Some_elem_of, list_elem_of_filter in Hhead as [? _]. }
    split_and!.
    + intros id. split.
      * intros [= <-]. by exists pre, c0, post.
      * intros (pre' & c & post' & Hcs' & <- & Hc & Hpre').
        rewrite Hcs', filter_app, filter_cons_True in Hhead by done.
        rewrite (filter_none _ pre') in Hhead by done.
        simpl in Hhead. by injection Hhead as ->.
    + split; [done|]. intros Hnone. destruct (Hnone c0); [|done].
      rewrite Hcs. apply elem_of_app. right. left.
    + intros [Hone Hent] c Hc [Hd Hne]. do 3 f_equal.
      apply list_elem_of_lookup in Hc as [i Hi].
      assert (Hin0 : c0 ∈ KmipServers m)
        by (rewrite Hcs; apply elem_of_app; right; left).
      apply list_elem_of_lookup in Hin0 as [j Hj].
      destruct Hc0 as [Hd0 _].
      assert (i = j); [|congruence].
      destruct entity as [e|]; simpl in Hd, Hd0.
      * by eapply Hent.
      * by eapply Hone.
  - apply head_None in Hhead. split_and!.
    + intros id. split; [done|].
      intros (pre & c & post & Hcs & _ & Hc & _).
      assert (Hin : c ∈ filter (default_candidate entity) (KmipServers m)).
      { apply list_elem_of_filter. split; [done|]. rewrite Hcs.
        apply elem_of_app. right. left. }
      rewrite Hhead in Hin. by apply elem_of_nil in Hin.
    + split; [|done]. intros _ c Hc Hcand.
      assert (Hin : c ∈ filter (default_candidate entity) (KmipServers m))
        by (by apply list_elem_of_filter).
      rewrite Hhead in Hin. by apply elem_of_nil in Hin.
    + intros _ c Hc Hcand.
      assert (Hin : c ∈ filter (default_candidate entity) (KmipServers m))
        by (by apply list_elem_of_filter).
      rewrite Hhead in Hin. by apply elem_of_nil in Hin.
Qed.

Lemma two_cluster_invariant e1 e2 a b sa sb da db :
  e1 ≠ e2 → a ≠ b → (da && db = false) →
  unique_cluster_ids [cluster a sa da [e1]; cluster b sb db [e2]]
  ∧ default_invariant [cluster a sa da [e1]; cluster b sb db [e2]].
Proof.
  intros He Hab Hd. unfold default_invariant. split_and!.
  - unfold unique_cluster_ids, cluster_ids. simpl.
    apply NoDup_cons. split; [by intros ->%list_elem_of_singleton|].
    apply NoDup_singleton.
  - intros i j ci cj Hi Hj Hdi Hdj.
    destruct i as [|[|i]], j as [|[|j]]; simpl in *; try done;
      injection Hi as <-; injection Hj as <-; simpl in *; subst; done.
  - intros i j ci cj e Hi Hj Hei Hej.
    destruct i as [|[|i]], j as [|[|j]]; simpl in *; try done;
      injection Hi as <-; injection Hj as <-;
      apply list_elem_of_singleton in Hei, Hej; congruence.
Qed.

Lemma GetDefaultKmsCluster_result_witness :
  let m := registry [cluster "pA" [] false [vm1]; cluster "pB" [] true [vm2]] in
  GetDefaultKmsCluster m (GetDefault_request None None)
  = Res (Some {| Id := Id (ClusterId (cluster "pB" [] true [vm2])) |})
  ∧ GetDefaultKmsCluster m (GetDefault_request (Some vm1) None)
    = Res (Some {| Id := Id (ClusterId (cluster "pA" [] false [vm1])) |}).
Proof.
  intros m.
  destruct (two_cluster_invariant vm1 vm2 "pA" "pB" [] [] false true)
    as [_ Hinv]; [done..|].
  split.
  - apply (GetDefaultKmsCluster_result m None None); [exact Hinv | |].
    + apply list_elem_of_lookup. by exists 1.
    + split; [done | discriminate].
  - apply (GetDefaultKmsCluster_result m (Some vm1) None); [exact Hinv | |].
    + apply list_elem_of_lookup. by exists 0.
    + split; [left | discriminate].
Defined.

(** ** SetDefaultKmsCluster followed by GetDefaultKmsCluster *)

Lemma SetDefault_visit_target_default id entity c :
  id ≠ "" → Id (ClusterId c) = id →
  default_for entity (SetDefault_visit (SetDefault_request id entity) c).1.
Proof.
  intros Hne Hid. destruct entity as [e|]; simpl.
  - rewrite SetDefault_visit_target_entity by done.
    destruct (decide (e ∈ UseAsEntityDefault c)); [done|]. simpl.
    apply elem_of_app. right. left.
  - unfold SetDefault_visit, SetDefault_request.
    rewrite explicit_cluster_Some by done.
    by rewrite decide_False by (intros H; by apply H).
Qed.

Lemma SetDefault_explicit_defaults id entity entity' c :
  id ≠ "" →
  default_for entity'
    (SetDefault_visit (SetDefault_request id entity) c).1 →
  Id (ClusterId (SetDefault_visit (SetDefault_request id entity) c).1) = id.
Proof.
  intros Hne Hd. rewrite SetDefault_visit_id.
  destruct (SetDefault_visit_explicit (SetDefault_request id entity) id c)
    as [Hflag Hent]; [by apply explicit_cluster_Some|].
  destruct entity' as [e'|]; simpl in Hd; eauto.
Qed.

(** X9: after SetDefaultKmsCluster with a registered, non-empty cluster ID,
    with or without an entity (so after MarkDefault too),
    GetDefaultKmsCluster for that entity returns that ID; and for every
    entity, or none, it returns that ID or faults with "No default
    provider": no other cluster is left as a default of any kind. *)
Theorem SetDefault_then_GetDefault :
  ∀ (m : CryptoManagerKmip) (id : string)
    (entity : option ManagedObjectReference) (p : option bool),
    id ≠ "" →
    id ∈ cluster_ids (KmipServers m) →
    let m' := (SetDefaultKmsCluster m (SetDefault_request id entity)).1 in
    GetDefaultKmsCluster m' (GetDefault_request entity p)
    = Res (Some {| Id := id |})
    ∧ ∀ entity',
        GetDefaultKmsCluster m' (GetDefault_request entity' p)
        = Res (Some {| Id := id |})
        ∨ GetDefaultKmsCluster m' (GetDefault_request entity' p)
          = Fault_ NoDefaultProvider.
Proof.
  intros m id entity p Hne Hreg m'.
  assert (Hall : ∀ entity' c, c ∈ KmipServers m' → default_for entity' c →
                              Id (ClusterId c) = id).
  { intros entity' c Hc Hd. subst m'.
    rewrite SetDefaultKmsCluster_servers in Hc.
    apply list_elem_of_fmap in Hc as (c0 & -> & _).
    by eapply SetDefault_explicit_defaults. }
  split.
  - apply GetDefaultKmsCluster_only; [by apply Hall | | done].
    apply list_elem_of_fmap in Hreg as (c & Hid & Hc).
    exists (SetDefault_visit (SetDefault_request id entity) c).1. split.
    + subst m'. rewrite SetDefaultKmsCluster_servers.
      apply list_elem_of_fmap. by exists c.
    + by apply SetDefault_visit_target_default.
  - intros entity'.
    destruct (decide (Exists (default_for entity') (KmipServers m')))
      as [Hex|Hnone].
    + left. apply Exists_exists in Hex.
      apply GetDefaultKmsCluster_only; [by apply Hall | done | done].
    + right. apply GetDefaultKmsCluster_none. intros c Hc Hd.
      apply Hnone, Exists_exists. by exists c.
Qed.

Lemma SetDefault_then_GetDefault_witness :
  let m := registry [cluster "pA" [] true [vm2]; cluster "pB" [] false []] in
  let m' := (SetDefaultKmsCluster m (SetDefault_request "pB" (Some vm1))).1 in
  GetDefaultKmsCluster m' (GetDefault_request (Some vm1) None)
  = Res (Some {| Id := "pB" |}).
Proof.
  intros m m'.
  apply (SetDefault_then_GetDefault m "pB" (Some vm1) None);
    [discriminate | by apply (bool_decide_unpack _)].
Defined.

(** ** SetDefaultKmsCluster without a cluster ID *)

Lemma GetDefault_loop_fmap entity (f : KmipClusterInfo → KmipClusterInfo) cs :
  (∀ c, c ∈ cs → Id (ClusterId (f c)) = Id (ClusterId c)
                 ∧ (default_for entity (f c) ↔ default_for entity c)) →
  GetDefault_loop entity (f <$> cs) "" = GetDefault_loop entity cs "".
Proof.
  rewrite !GetDefault_loop_first. induction cs as [|c cs IH]; intros Hf; [done|].
  destruct (Hf c) as [Hid Hd]; [left|].
  assert (Hcand : default_candidate entity (f c) ↔ default_candidate entity c).
  { unfold default_candidate. by rewrite Hid, Hd. }
  rewrite fmap_cons. destruct (decide (default_candidate entity c)) as [Hc|Hc].
  - rewrite !filter_cons_True by (done || by apply Hcand). done.
  - rewrite !filter_cons_False by (done || by rewrite Hcand).
    apply IH. intros c' Hc'. apply Hf. by right.
Qed.

Lemma GetDefaultKmsCluster_after_SetDefault_same m req entity p :
  (∀ c, c ∈ KmipServers m →
        default_for entity (SetDefault_visit req c).1 ↔ default_for entity c) →
  GetDefaultKmsCluster (SetDefaultKmsCluster m req).1
    (GetDefault_request entity p)
  = GetDefaultKmsCluster m (GetDefault_request entity p).
Proof.
  intros Hsame. unfold GetDefaultKmsCluster. simpl.
  rewrite SetDefaultKmsCluster_servers, GetDefault_loop_fmap; [done|].
  intros c Hc. split; [by rewrite SetDefault_visit_id | by apply Hsame].
Qed.

Lemma entity_index_position e l :
  ∀ j x, entity_index e l j = Some x → ∃ k, x = j + k ∧ l !! k = Some e.
Proof.
  induction l as [|y l IH]; intros j x Hx; simpl in Hx; [done|].
  destruct (decide (e = y)) as [->|Hne].
  - injection Hx as <-. exists 0. split; [lia | done].
  - destruct (IH _ _ Hx) as (k & -> & Hk). exists (S k). split; [lia | done].
Qed.

Lemma entity_index_absent e l j : entity_index e l j = None → e ∉ l.
Proof.
  revert j. induction l as [|y l IH]; intros j Hj; simpl in Hj.
  - by intros ?%elem_of_nil.
  - destruct (decide (e = y)); [done|]. rewrite not_elem_of_cons.
    split; [done | by eapply IH].
Qed.

Lemma elem_of_delete_other {A} (l : list A) k x y :
  l !! k = Some x → y ≠ x → y ∈ delete k l ↔ y ∈ l.
Proof.
  intros Hk Hne. rewrite <- (take_drop_middle l k x Hk) at 2.
  rewrite delete_take_drop, !elem_of_app, elem_of_cons.
  split; [intros [?|?]; auto | intros [?|[?|?]]; [auto | done | auto]].
Qed.

Lemma not_elem_of_delete_NoDup {A} (l : list A) k x :
  NoDup l → l !! k = Some x → x ∉ delete k l.
Proof.
  intros Hnd Hk. rewrite <- (take_drop_middle l k x Hk) in Hnd.
  apply NoDup_app in Hnd as (_ & Hdisj & Hnd).
  apply NoDup_cons in Hnd as [Hrest _].
  rewrite delete_take_drop, elem_of_app.
  intros [Hin|Hin]; [|done]. apply (Hdisj _ Hin). left.
Qed.

(** The request without a usable cluster ID: none, or the empty string. *)
Lemma explicit_cluster_None cid entity :
  cid = None ∨ cid = Some {| Id := "" |} →
  explicit_cluster {| SetDefault_ClusterId := cid;
                      SetDefault_Entity := entity |} = None.
Proof. by intros [->| ->]. Qed.

(** X10: SetDefaultKmsCluster with neither a cluster ID (none or the empty
    string) nor an entity always succeeds and clears every [UseAsDefault]
    flag: GetDefaultKmsCluster without an entity then faults with "No
    default provider", while for every entity it answers as before. *)
Theorem SetDefault_nothing_clears_global_default :
  ∀ (m : CryptoManagerKmip) (cid : option KeyProviderId) (p : option bool),
    cid = None ∨ cid = Some {| Id := "" |} →
    let r := SetDefaultKmsCluster m
               {| SetDefault_ClusterId := cid; SetDefault_Entity := None |} in
    r.2 = Res ()
    ∧ KmipServers r.1 = set_UseAsDefault false <$> KmipServers m
    ∧ GetDefaultKmsCluster r.1 (GetDefault_request None p)
      = Fault_ NoDefaultProvider
    ∧ ∀ e, GetDefaultKmsCluster r.1 (GetDefault_request (Some e) p)
           = GetDefaultKmsCluster m (GetDefault_request (Some e) p).
Proof.
  intros m cid p Hcid r. subst r.
  pose proof (explicit_cluster_None cid None Hcid) as Hex.
  assert (Hvisit : ∀ c,
    (SetDefault_visit {| SetDefault_ClusterId := cid;
                         SetDefault_Entity := None |} c).1
    = set_UseAsDefault false c).
  { intros c. unfold SetDefault_visit. by rewrite Hex. }
  assert (Hservers :
    KmipServers (SetDefaultKmsCluster m
                   {| SetDefault_ClusterId := cid;
                      SetDefault_Entity := None |}).1
    = set_UseAsDefault false <$> KmipServers m).
  { rewrite SetDefaultKmsCluster_servers. apply list_fmap_ext.
    intros i c _. apply Hvisit. }
  split_and!.
  - rewrite SetDefaultKmsCluster_body, Hex.
    by rewrite bool_decide_eq_false_2 by (by intros [? ?]).
  - done.
  - apply GetDefaultKmsCluster_none. intros c Hc. rewrite Hservers in Hc.
    apply list_elem_of_fmap in Hc as (c0 & -> & _). simpl. discriminate.
  - intros e. apply GetDefaultKmsCluster_after_SetDefault_same.
    intros c _. by rewrite Hvisit.
Qed.

Lemma SetDefault_nothing_clears_global_default_witness :
  let m := registry [cluster "pA" [] true [vm2]; cluster "pB" [] false []] in
  let r := SetDefaultKmsCluster m
             {| SetDefault_ClusterId := Some {| Id := "" |};
                SetDefault_Entity := None |} in
  r.2 = Res ()
  ∧ GetDefaultKmsCluster r.1 (GetDefault_request None None)
    = Fault_ NoDefaultProvider.
Proof.
  intros m r.
  destruct (SetDefault_nothing_clears_global_default m
              (Some {| Id := "" |}) None) as (Hres & _ & Hget & _);
    [by right | done].
Defined.

(** X11: SetDefaultKmsCluster with an entity and no cluster ID (none or the
    empty string) always succeeds, leaves every [UseAsDefault] flag, and
    removes from each cluster the first entry of the entity.
    GetDefaultKmsCluster answers as before without an entity and for every
    other entity; for the entity itself it faults with "No default
    provider" when no cluster lists the entity twice. *)
Theorem SetDefault_entity_only_unsets_entity :
  ∀ (m : CryptoManagerKmip) (cid : option KeyProviderId)
    (e : ManagedObjectReference) (p : option bool),
    cid = None ∨ cid = Some {| Id := "" |} →
    let r := SetDefaultKmsCluster m
               {| SetDefault_ClusterId := cid; SetDefault_Entity := Some e |} in
    r.2 = Res ()
    ∧ (∀ entity', entity' ≠ Some e →
         GetDefaultKmsCluster r.1 (GetDefault_request entity' p)
         = GetDefaultKmsCluster m (GetDefault_request entity' p))
    ∧ ((∀ c, c ∈ KmipServers m → NoDup (UseAsEntityDefault c)) →
       GetDefaultKmsCluster r.1 (GetDefault_request (Some e) p)
       = Fault_ NoDefaultProvider).
Proof.
  intros m cid e p Hcid r. subst r.
  set (req := {| SetDefault_ClusterId := cid; SetDefault_Entity := Some e |}).
  assert (Hex : explicit_cluster req = None)
    by (by apply explicit_cluster_None).
  assert (Hvisit : ∀ c,
    (SetDefault_visit req c).1
    = match entity_index e (UseAsEntityDefault c) 0 with
      | Some x => set_UseAsEntityDefault (delete x (UseAsEntityDefault c)) c
      | None => c
      end).
  { intros c. unfold SetDefault_visit. rewrite Hex. simpl.
    by destruct (entity_index _ _ _). }
  split_and!.
  - rewrite SetDefaultKmsCluster_body, Hex.
    by rewrite bool_decide_eq_false_2 by (by intros [? ?]).
  - intros entity' Hne. apply GetDefaultKmsCluster_after_SetDefault_same.
    intros c _. rewrite Hvisit.
    destruct (entity_index e (UseAsEntityDefault c) 0) as [x|] eqn:Hidx;
      [|done].
    destruct (entity_index_position _ _ _ _ Hidx) as (k & -> & Hk).
    destruct entity' as [e'|]; simpl; [|done].
    apply elem_of_delete_other with e; [done | congruence].
  - intros Hnd. apply GetDefaultKmsCluster_none. intros c Hc Hd.
    rewrite SetDefaultKmsCluster_servers in Hc.
    apply list_elem_of_fmap in Hc as (c0 & -> & Hc0).
    rewrite Hvisit in Hd. simpl in Hd.
    destruct (entity_index e (UseAsEntityDefault c0) 0) as [x|] eqn:Hidx.
    + destruct (entity_index_position _ _ _ _ Hidx) as (k & -> & Hk).
      simpl in Hd. by eapply not_elem_of_delete_NoDup; [apply Hnd | |].
    + by apply entity_index_absent in Hidx.
Qed.

Lemma SetDefault_entity_only_unsets_entity_witness :
  let m := registry [cluster "pA" [] true [vm2]; cluster "pB" [] false [vm1]] in
  let r := SetDefaultKmsCluster m
             {| SetDefault_ClusterId := None; SetDefault_Entity := Some vm1 |} in
  GetDefaultKmsCluster r.1 (GetDefault_request (Some vm2) None)
  = GetDefaultKmsCluster m (GetDefault_request (Some vm2) None)
  ∧ GetDefaultKmsCluster r.1 (GetDefault_request (Some vm1) None)
    = Fault_ NoDefaultProvider.
Proof.
  intros m r.
  destruct (SetDefault_entity_only_unsets_entity m None vm1 None)
    as (_ & Hother & Hgone); [by left|].
  split.
  - apply Hother. discriminate.
  - apply Hgone. intros c Hc. simpl in Hc.
    apply elem_of_cons in Hc as [->|Hc];
      [|apply list_elem_of_singleton in Hc as ->];
      by apply (bool_decide_unpack _).
Defined.

(** X12: a SetDefaultKmsCluster that faults because its non-empty cluster ID
    is not registered leaves no default behind: afterwards
    GetDefaultKmsCluster faults with "No default provider" for every entity
    and without one. *)
Theorem failed_SetDefault_leaves_no_default :
  ∀ (m : CryptoManagerKmip) (id : string)
    (entity entity' : option ManagedObjectReference) (p : option bool),
    id ≠ "" →
    id ∉ cluster_ids (KmipServers m) →
    GetDefaultKmsCluster
      (SetDefaultKmsCluster m (SetDefault_request id entity)).1
      (GetDefault_request entity' p)
    = Fault_ NoDefaultProvider.
Proof.
  intros m id entity entity' p Hne Hnot.
  apply GetDefaultKmsCluster_none. intros c Hc Hd.
  rewrite SetDefaultKmsCluster_servers in Hc.
  apply list_elem_of_fmap in Hc as (c0 & -> & Hc0).
  apply Hnot. apply list_elem_of_fmap. exists c0. split; [|done].
  rewrite <- (SetDefault_visit_id (SetDefault_request id entity) c0).
  symmetry. by eapply SetDefault_explicit_defaults.
Qed.

Lemma failed_SetDefault_leaves_no_default_witness :
  let m := registry [cluster "pA" [] true [vm2]; cluster "pB" [] false [vm1]] in
  GetDefaultKmsCluster
    (SetDefaultKmsCluster m (SetDefault_request "pC" None)).1
    (GetDefault_request (Some vm2) None)
  = Fault_ NoDefaultProvider.
Proof.
  intros m.
  apply (failed_SetDefault_leaves_no_default m "pC" None (Some vm2) None);
    [discriminate | by apply (bool_decide_unpack _)].
Defined.

(** ** GenerateKey and the default provider *)



Lemma first_cluster_id id cs c :
  first_cluster id cs = Some c → c ∈ cs ∧ Id (ClusterId c) = id.
Proof.
  unfold first_cluster. intros Hhead.
  by apply head_Some_elem_of, list_elem_of_filter in Hhead as [? ?].
Qed.






(** ** The ledger seen through ListKeys and IsValidKey *)

Lemma IsValidKey_ledger m keyID order :
  range_order (keyIDToProviderID m) order →
  IsValidKey m keyID order = true ↔ is_Some (keyIDToProviderID m !! keyID).
Proof.
  intros Hord. unfold IsValidKey. rewrite ListKeys_no_limit by done.
  rewrite IsValidKey_loop_true. split.
  - intros (k & Hin & <-). apply list_elem_of_fmap in Hin as ([k' v] & -> & Hin).
    apply (range_order_lookup _ _ _ _ Hord) in Hin. simpl. eauto.
  - intros [v Hv]. apply (range_order_lookup _ _ _ _ Hord) in Hv.
    exists (key_record (keyID, v)). split; [|done].
    apply list_elem_of_fmap. by exists (keyID, v).
Qed.

(** X15: whatever order the map is visited in, the client's IsValidKey is
    true exactly for the key IDs that the ledger records. So no key is valid
    in the state after [init], and a key that is valid stays valid after any
    sequence of calls, including the unregistration of its provider. *)
Theorem IsValidKey_is_ledger_membership :
  ∀ (nativeKeyProvider : string) (m : CryptoManagerKmip) (keyID : string)
    (order : list (string * string)),
    range_order (keyIDToProviderID m) order →
    (IsValidKey m keyID order = true ↔ is_Some (keyIDToProviderID m !! keyID))
    ∧ IsValidKey empty_manager keyID [] = false
    ∧ (IsValidKey m keyID order = true →
       ∀ calls order',
         range_order
           (keyIDToProviderID (serve_all nativeKeyProvider m calls)) order' →
         IsValidKey (serve_all nativeKeyProvider m calls) keyID order' = true).
Proof.
  intros native m keyID order Hord. split_and!.
  - by apply IsValidKey_ledger.
  - done.
  - intros Hvalid calls order' Hord'.
    apply IsValidKey_ledger; [done|]. apply serve_all_keeps_keys.
    by apply (IsValidKey_ledger m keyID order).
Qed.

Lemma IsValidKey_is_ledger_membership_witness :
  let m := {| KmipServers := [cluster "pA" [] true []];
              keyIDToProviderID := {[ "k1" := "pA" ]} |} in
  let calls := [CallUnregisterKmsCluster
                  {| Unregister_ClusterId := {| Id := "pA" |} |}] in
  IsValidKey (serve_all "nativeProvider" m calls) "k1" [("k1", "pA")] = true.
Proof.
  intros m calls.
  destruct (IsValidKey_is_ledger_membership "nativeProvider" m "k1"
              [("k1", "pA")]) as (_ & _ & Hstays).
  - unfold range_order. by vm_compute.
  - apply Hstays; [reflexivity|]. unfold range_order. by vm_compute.
Defined.

(** X16: a limit between 0 and the number of stored entries is the number
    of entries returned: ListKmipServers returns the first [n] clusters of
    the registry, and ListKeys returns [n] records, each a key of the ledger
    with its provider, no key ID twice. *)
Theorem limit_in_range_is_count :
  ∀ (m : CryptoManagerKmip) (n : Z),
    ((0 ≤ n ≤ Z.of_nat (length (KmipServers m)))%Z →
     ListKmipServers m {| ListKmipServers_Limit := Some n |}
     = take (Z.to_nat n) (KmipServers m)
     ∧ length (ListKmipServers m {| ListKmipServers_Limit := Some n |})
       = Z.to_nat n)
    ∧ ∀ order,
        range_order (keyIDToProviderID m) order →
        (0 ≤ n ≤ Z.of_nat (size (keyIDToProviderID m)))%Z →
        let keys := ListKeys m {| ListKeys_Limit := Some n |} order in
        length keys = Z.to_nat n
        ∧ NoDup (KeyId <$> keys)
        ∧ ∀ k, k ∈ keys →
            ∃ providerID,
              ProviderId k = Some {| Id := providerID |}
              ∧ keyIDToProviderID m !! KeyId k = Some providerID.
Proof.
  intros m n.
  assert (Hlimit : ∀ len, (0 ≤ n ≤ Z.of_nat len)%Z →
                          effective_limit len (Some n) = n).
  { intros len Hn. unfold effective_limit.
    destruct (0 <=? n)%Z eqn:H0; [|apply Z.leb_gt in H0; lia].
    destruct (n <? Z.of_nat len)%Z eqn:H1; [done|].
    apply Z.ltb_ge in H1. simpl. lia. }
  split.
  - intros Hn.
    assert (Heq : ListKmipServers m {| ListKmipServers_Limit := Some n |}
                  = take (Z.to_nat n) (KmipServers m)).
    { unfold ListKmipServers. cbn [ListKmipServers_Limit].
      rewrite Hlimit by done. destruct (decide _) as [Hpos|Hzero]; [done|].
      destruct (KmipServers m); [by rewrite take_nil | simpl in Hzero; lia]. }
    split; [done|]. rewrite Heq, length_take. lia.
  - intros order Hord Hn keys. subst keys.
    rewrite ListKeys_take by done. cbn [ListKeys_Limit].
    rewrite Hlimit by done. split_and!.
    + rewrite length_fmap, length_take, (range_order_length _ _ Hord). lia.
    + rewrite <- list_fmap_compose.
      assert (Hfst : KeyId ∘ key_record = fst) by done.
      rewrite Hfst. rewrite fmap_take.
      eapply sublist_NoDup; [by eapply range_order_NoDup|].
      apply sublist_take.
    + intros k (e & -> & He)%list_elem_of_fmap. destruct e as [keyID v].
      exists v. split; [done|]. simpl.
      apply (range_order_lookup _ _ _ _ Hord).
      apply elem_of_take in He as (i & Hi & _).
      by eapply list_elem_of_lookup_2.
Qed.

Lemma limit_in_range_is_count_witness :
  let m := {| KmipServers := [cluster "pA" [] true []; cluster "pB" [] false []];
              keyIDToProviderID := {[ "k1" := "pA"; "k2" := "pA" ]} |} in
  ListKmipServers m {| ListKmipServers_Limit := Some 1%Z |}
  = take (Z.to_nat 1) (KmipServers m)
  ∧ length (ListKeys m {| ListKeys_Limit := Some 1%Z |}
              (map_to_list (keyIDToProviderID m))) = Z.to_nat 1.
Proof.
  intros m.
  destruct (limit_in_range_is_count m 1%Z) as [Hclusters Hkeys].
  split.
  - apply Hclusters. simpl. lia.
  - apply Hkeys; [by unfold range_order|]. vm_compute. split; discriminate.
Defined.

(** ** The client's status accessors *)















(** ** The status task with selectors *)








(** ** Calls that undo or repeat each other *)

Lemma first_cluster_split id cs c :
  first_cluster id cs = Some c →
  ∃ pre post, cs = pre ++ c :: post ∧ (id ∉ cluster_ids pre)
              ∧ Id (ClusterId c) = id.
Proof.
  intros Hfirst. destruct (first_cluster_id _ _ _ Hfirst) as [_ Hid].
  unfold first_cluster in Hfirst.
  destruct (head_filter_Some _ _ _ Hfirst) as (pre & post & -> & Hpre).
  exists pre, post. split_and!; [done | | done].
  intros (c' & Hc' & Hin)%list_elem_of_fmap.
  rewrite Forall_forall in Hpre. by apply (Hpre c').
Qed.

Lemma server_index_appended name ss info :
  Name info = name → name ∉ Name <$> ss →
  ∀ j, server_index name (ss ++ [info]) j = Some (j + length ss).
Proof.
  intros Hinfo. induction ss as [|s ss IH]; intros Hnot j; simpl.
  - rewrite decide_True by done. f_equal. lia.
  - rewrite fmap_cons, not_elem_of_cons in Hnot. destruct Hnot as [Hne Hnot].
    rewrite decide_False by done. rewrite IH by done. f_equal. lia.
Qed.

(** X22: when the first cluster of an ID has no server of a name,
    registering a server of that name there and then removing that name
    gives back the state before the two calls, both calls succeeding. *)
Theorem RegisterKmipServer_then_Remove_restores :
  ∀ (m : CryptoManagerKmip) (id : string) (info : KmipServerInfo)
    (c : KmipClusterInfo),
    first_cluster id (KmipServers m) = Some c →
    Name info ∉ Name <$> Servers c →
    let r := RegisterKmipServer m
               {| Register_Server := {| Spec_ClusterId := {| Id := id |};
                                        Info := info |} |} in
    r.2 = Res ()
    ∧ RemoveKmipServer r.1
        {| Remove_ClusterId := {| Id := id |}; ServerName := Name info |}
      = (m, Res ()).
Proof.
  intros m id info c Hfirst Hfresh r. subst r.
  destruct (first_cluster_split _ _ _ Hfirst) as (pre & post & Hcs & Hpre & Hid).
  unfold RegisterKmipServer. rewrite Hcs.
  rewrite (RegisterKmipServer_loop_first _ pre c post) by done. simpl.
  rewrite (proj2 (server_index_named _ _ 0)) by done. simpl.
  split; [done|]. unfold RemoveKmipServer. simpl.
  rewrite (RemoveKmipServer_loop_first _ pre _ post) by done. simpl.
  rewrite server_index_appended by done. simpl.
  replace (Servers c ++ [info]) with (Servers c ++ info :: []) by done.
  rewrite delete_middle, app_nil_r.
  assert (Hc : set_Servers (Servers c)
                 (set_Servers (Servers c ++ [info]) c) = c) by (by destruct c).
  rewrite Hc, <- Hcs. by destruct m.
Qed.

Lemma RegisterKmipServer_then_Remove_restores_witness :
  let c := cluster "pA" [server "s1"] true [] in
  let m := registry [c; cluster "pB" [] false []] in
  RemoveKmipServer
    (RegisterKmipServer m
       {| Register_Server := {| Spec_ClusterId := {| Id := "pA" |};
                                Info := server "s2" |} |}).1
    {| Remove_ClusterId := {| Id := "pA" |}; ServerName := Name (server "s2") |}
  = (m, Res ()).
Proof.
  intros c m.
  apply (RegisterKmipServer_then_Remove_restores m "pA" (server "s2") c).
  - reflexivity.
  - by apply (bool_decide_unpack _).
Defined.

Lemma SetDefault_visit_target_flag id c :
  id ≠ "" → Id (ClusterId c) = id →
  (SetDefault_visit (SetDefault_request id None) c).1 = set_UseAsDefault true c.
Proof.
  intros Hne Hid. unfold SetDefault_visit, SetDefault_request.
  rewrite explicit_cluster_Some by done. simpl.
  by rewrite decide_False by (intros H; by apply H).
Qed.

Lemma SetDefault_visit_twice id entity c :
  id ≠ "" →
  (SetDefault_visit (SetDefault_request id entity)
     (SetDefault_visit (SetDefault_request id entity) c).1).1
  = (SetDefault_visit (SetDefault_request id entity) c).1.
Proof.
  intros Hne. destruct (decide (Id (ClusterId c) = id)) as [Hid|Hid].
  - destruct entity as [e|].
    + rewrite !SetDefault_visit_target_entity
        by (done || by rewrite ?SetDefault_visit_id).
      destruct (decide (e ∈ UseAsEntityDefault c)) as [Hin|Hnin].
      * by rewrite decide_True.
      * rewrite decide_True; [done|]. simpl. apply elem_of_app. right. left.
    + rewrite (SetDefault_visit_target_flag id c) by done.
      by rewrite SetDefault_visit_target_flag.
  - rewrite (SetDefault_visit_other id entity c) by done.
    by rewrite SetDefault_visit_other.
Qed.

(** X23: SetDefaultKmsCluster with a non-empty cluster ID, registered or
    not, with or without an entity, is idempotent: repeating the call on the
    state it left gives the same state and the same body. *)
Theorem SetDefault_explicit_idempotent :
  ∀ (m : CryptoManagerKmip) (id : string)
    (entity : option ManagedObjectReference),
    id ≠ "" →
    let r := SetDefaultKmsCluster m (SetDefault_request id entity) in
    SetDefaultKmsCluster r.1 (SetDefault_request id entity) = r.
Proof.
  intros m id entity Hne r. subst r.
  set (req := SetDefault_request id entity).
  assert (Hex : explicit_cluster req = Some id)
    by (by apply explicit_cluster_Some).
  apply injective_projections.
  - assert (Hservers :
      KmipServers (SetDefaultKmsCluster (SetDefaultKmsCluster m req).1 req).1
      = KmipServers (SetDefaultKmsCluster m req).1).
    { rewrite !SetDefaultKmsCluster_servers, <- list_fmap_compose.
      apply list_fmap_ext. intros i c _. simpl.
      by apply SetDefault_visit_twice. }
    pose proof (SetDefaultKmsCluster_keys (SetDefaultKmsCluster m req).1 req)
      as Hkeys.
    destruct (SetDefaultKmsCluster (SetDefaultKmsCluster m req).1 req).1.
    destruct (SetDefaultKmsCluster m req).1. simpl in *. by subst.
  - rewrite !SetDefaultKmsCluster_body.
    rewrite !(SetDefault_valid_registered _ id) by done.
    assert (Hids : cluster_ids (KmipServers (SetDefaultKmsCluster m req).1)
                   = cluster_ids (KmipServers m)).
    { rewrite SetDefaultKmsCluster_servers. unfold cluster_ids.
      rewrite <- list_fmap_compose. apply list_fmap_ext.
      intros i c _. simpl. by rewrite SetDefault_visit_id. }
    by rewrite Hids.
Qed.

Lemma SetDefault_explicit_idempotent_witness :
  let m := registry [cluster "pA" [] true [vm2]; cluster "pB" [] false []] in
  let r := SetDefaultKmsCluster m (SetDefault_request "pB" (Some vm1)) in
  SetDefaultKmsCluster r.1 (SetDefault_request "pB" (Some vm1)) = r.
Proof.
  intros m r.
  apply (SetDefault_explicit_idempotent m "pB" (Some vm1)). discriminate.
Defined.

(** ** IsDefaultProviderNative *)



(** ** What a call can change *)

Lemma same_but_servers_tail c c' cs :
  same_but_servers c c' → Forall2 same_but_servers (c :: cs) (c' :: cs).
Proof.
  intros Hc. constructor; [done|].
  apply Forall_Forall2_diag, Forall_forall. by intros ? _.
Qed.

Lemma RegisterKmipServer_loop_same spec cs :
  Forall2 same_but_servers cs (RegisterKmipServer_loop spec cs).1.1.
Proof.
  induction cs as [|c cs IH]; simpl; [constructor|].
  destruct (decide _).
  - destruct (server_index _ _ _); simpl; by apply same_but_servers_tail.
  - destruct (RegisterKmipServer_loop spec cs) as [[cs' v] a]. simpl in *.
    by constructor.
Qed.

Lemma RemoveKmipServer_loop_same req cs :
  Forall2 same_but_servers cs (RemoveKmipServer_loop req cs).1.1.
Proof.
  induction cs as [|c cs IH]; simpl; [constructor|].
  destruct (decide _).
  - destruct (server_index _ _ _); simpl; by apply same_but_servers_tail.
  - destruct (RemoveKmipServer_loop req cs) as [[cs' v] a]. simpl in *.
    by constructor.
Qed.

Lemma UpdateKmipServer_loop_same spec cs :
  Forall2 same_but_servers cs (UpdateKmipServer_loop spec cs).1.1.
Proof.
  induction cs as [|c cs IH]; simpl; [constructor|].
  destruct (decide _).
  - destruct (server_index _ _ _); simpl; by apply same_but_servers_tail.
  - destruct (UpdateKmipServer_loop spec cs) as [[cs' v] a]. simpl in *.
    by constructor.
Qed.

Lemma same_but_servers_fields cs cs' :
  Forall2 same_but_servers cs cs' →
  cluster_ids cs' = cluster_ids cs
  ∧ UseAsDefault <$> cs' = UseAsDefault <$> cs
  ∧ ManagementType <$> cs' = ManagementType <$> cs
  ∧ UseAsEntityDefault <$> cs' = UseAsEntityDefault <$> cs.
Proof.
  unfold cluster_ids.
  induction 1 as [|c c' cs cs' (Hid & Hd & Hm & He) _ (IH1 & IH2 & IH3 & IH4)];
    [done|].
  rewrite !fmap_cons, IH1, IH2, IH3, IH4, Hid, Hd, Hm, He. done.
Qed.

Lemma server_call_same native m call :
  match call with
  | CallRegisterKmipServer _ | CallUpdateKmipServer _
  | CallRemoveKmipServer _ => True
  | _ => False
  end →
  Forall2 same_but_servers (KmipServers m) (KmipServers (serve native m call)).
Proof.
  destruct call as [req|req|req|req|req|req|req|req newKey]; try done;
    intros _; simpl.
  - pose proof (RegisterKmipServer_loop_same (Register_Server req)
                  (KmipServers m)) as Hsame.
    unfold RegisterKmipServer.
    by destruct (RegisterKmipServer_loop _ _) as [[cs v] a].
  - pose proof (UpdateKmipServer_loop_same (Update_Server req)
                  (KmipServers m)) as Hsame.
    unfold UpdateKmipServer.
    by destruct (UpdateKmipServer_loop _ _) as [[cs v] a].
  - pose proof (RemoveKmipServer_loop_same req (KmipServers m)) as Hsame.
    unfold RemoveKmipServer.
    by destruct (RemoveKmipServer_loop _ _) as [[cs v] a].
Qed.

(** X25: the registry and the ledger are written by different calls.
    GenerateKey never changes the registry, and leaves the ledger as it is or
    with the new key recorded against a registered ID; every other call
    leaves the ledger as it is, and the server calls leave the cluster IDs,
    their order, the management types and every default as they are. *)
Theorem calls_write_registry_or_ledger :
  ∀ (nativeKeyProvider : string) (m : CryptoManagerKmip) (call : Call),
    let m' := serve nativeKeyProvider m call in
    match call with
    | CallGenerateKey req newKey =>
        KmipServers m' = KmipServers m
        ∧ (keyIDToProviderID m' = keyIDToProviderID m
           ∨ ∃ id, id ∈ cluster_ids (KmipServers m)
                   ∧ keyIDToProviderID m'
                     = <[newKey := id]> (keyIDToProviderID m))
    | CallRegisterKmipServer _ | CallUpdateKmipServer _
    | CallRemoveKmipServer _ =>
        keyIDToProviderID m' = keyIDToProviderID m
        ∧ cluster_ids (KmipServers m') = cluster_ids (KmipServers m)
        ∧ UseAsDefault <$> KmipServers m' = UseAsDefault <$> KmipServers m
        ∧ ManagementType <$> KmipServers m' = ManagementType <$> KmipServers m
        ∧ UseAsEntityDefault <$> KmipServers m'
          = UseAsEntityDefault <$> KmipServers m
    | _ => keyIDToProviderID m' = keyIDToProviderID m
    end.
Proof.
  intros native m call m'. subst m'.
  destruct call as [req|req|req|req|req|req|req|req newKey].
  - apply RegisterKmsCluster_keys.
  - apply UnregisterKmsCluster_keys.
  - split; [apply RegisterKmipServer_keys|].
    by apply same_but_servers_fields, server_call_same.
  - split; [apply UpdateKmipServer_keys|].
    by apply same_but_servers_fields, server_call_same.
  - split; [apply RemoveKmipServer_keys|].
    by apply same_but_servers_fields, server_call_same.
  - apply SetDefaultKmsCluster_keys.
  - unfold serve, MarkDefault. apply SetDefaultKmsCluster_keys.
  - split; [apply GenerateKey_servers|]. simpl.
    unfold GenerateKey.
    destruct (decide (Id (ClusterId (GenerateKey_provider m req)) = ""))
      as [|Hne]; [by left|].
    destruct (decide _); [by left|]. right. eexists. split; [|done].
    destruct (GenerateKey_provider_resolved m req Hne) as [Hin _].
    apply list_elem_of_fmap. by eexists.
Qed.

(** ** The default a client is told *)


(** ** Entity defaults in the states the calls reach *)

Lemma SetDefault_visit_listed_once req c :
  NoDup (UseAsEntityDefault c) →
  NoDup (UseAsEntityDefault (SetDefault_visit req c).1).
Proof.
  intros Hnd. unfold SetDefault_visit.
  destruct (explicit_cluster req) as [id|].
  - destruct (decide _); simpl; [apply NoDup_nil_2|].
    destruct (SetDefault_Entity req) as [e|]; simpl; [|done].
    destruct (entity_found e (UseAsEntityDefault c)) eqn:Hf; simpl; [done|].
    apply entity_found_false in Hf. apply NoDup_app. split_and!; [done| |].
    + by intros e' He' ->%list_elem_of_singleton.
    + apply NoDup_singleton.
  - destruct (SetDefault_Entity req) as [e|]; simpl; [|done].
    destruct (entity_index _ _ _); simpl; [|done].
    eapply sublist_NoDup; [exact Hnd | apply sublist_delete].
Qed.

Lemma same_but_servers_listed_once cs cs' :
  Forall2 same_but_servers cs cs' →
  entities_listed_once cs → entities_listed_once cs'.
Proof.
  unfold entities_listed_once.
  induction 1 as [|c c' cs cs' (_ & _ & _ & He) _ IH]; [done|].
  intros [Hc Hcs]%Forall_cons. constructor; [by rewrite He | by apply IH].
Qed.

Lemma serve_listed_once native m call :
  entities_listed_once (KmipServers m) →
  entities_listed_once (KmipServers (serve native m call)).
Proof.
  intros Hnd.
  destruct call as [req|req|req|req|req|req|req|req newKey];
    try (by eapply same_but_servers_listed_once;
              [by apply server_call_same | done]);
    simpl; unfold entities_listed_once in *.
  - unfold RegisterKmsCluster. destruct (RegisterKmsCluster_loop _ _ _); [done|].
    simpl. apply Forall_app. split; [done|].
    apply Forall_singleton. simpl. apply NoDup_nil_2.
  - unfold UnregisterKmsCluster.
    destruct (UnregisterKmsCluster_loop _ _ _ _) as [x|]; [|done]. simpl.
    by apply Forall_delete.
  - rewrite SetDefaultKmsCluster_servers. apply Forall_fmap.
    eapply Forall_impl; [exact Hnd|]. intros c Hc.
    by apply SetDefault_visit_listed_once.
  - unfold MarkDefault. rewrite SetDefaultKmsCluster_servers. apply Forall_fmap.
    eapply Forall_impl; [exact Hnd|]. intros c Hc.
    by apply SetDefault_visit_listed_once.
  - by rewrite GenerateKey_servers.
Qed.

Lemma serve_all_listed_once native calls :
  ∀ m, entities_listed_once (KmipServers m) →
       entities_listed_once (KmipServers (serve_all native m calls)).
Proof.
  induction calls as [|call calls IH]; intros m Hnd; simpl; [done|].
  by apply IH, serve_listed_once.
Qed.

(** X27: in every state the calls reach from the empty registry no cluster
    lists an entity twice among its entity defaults; so there, after
    SetDefaultKmsCluster with the entity and no cluster ID,
    GetDefaultKmsCluster for that entity faults with "No default
    provider". *)
Theorem reachable_entity_unset_has_no_default :
  ∀ (nativeKeyProvider : string) (calls : list Call)
    (e : ManagedObjectReference) (p : option bool),
    let m := serve_all nativeKeyProvider empty_manager calls in
    entities_listed_once (KmipServers m)
    ∧ GetDefaultKmsCluster
        (SetDefaultKmsCluster m
           {| SetDefault_ClusterId := None; SetDefault_Entity := Some e |}).1
        (GetDefault_request (Some e) p)
      = Fault_ NoDefaultProvider.
Proof.
  intros native calls e p m.
  assert (Hnd : entities_listed_once (KmipServers m)).
  { apply serve_all_listed_once. constructor. }
  split; [done|].
  apply GetDefaultKmsCluster_none. intros c Hc Hd.
  rewrite SetDefaultKmsCluster_servers in Hc.
  apply list_elem_of_fmap in Hc as (c0 & -> & Hc0).
  unfold entities_listed_once in Hnd. rewrite Forall_forall in Hnd.
  specialize (Hnd c0 Hc0). unfold SetDefault_visit in Hd. simpl in Hd.
  destruct (entity_index e (UseAsEntityDefault c0) 0) as [x|] eqn:Hidx;
    simpl in Hd.
  - destruct (entity_index_position _ _ _ _ Hidx) as (k & -> & Hk).
    by eapply not_elem_of_delete_NoDup.
  - by apply entity_index_absent in Hidx.
Qed.

